(** * Release resolution and platform matching of the Mira website

  A shallow embedding of the decision logic of three source files:

  - [src/app/downloads/page.tsx]: the Release Resolver (module [Downloads]);
  - [src/unnamed/part_001], the client component [DownloadCards]
    (module [Cards]);
  - [src/app/about/page.tsx]: the roadmap parser and the upcoming release
    plan (module [About]).

  JavaScript strings are sequences of UTF-16 code units.  They are modelled
  by [string], one [ascii] per code unit: the model covers the code units
  below 256 (ASCII and the Latin-1 supplement).  JavaScript numbers are
  modelled by [Z]: the numbers the code computes are integers (sizes, scores,
  version components), taken to be below 2^53, where the arithmetic of
  JavaScript is exact. *)

From Stdlib Require Import List Bool Arith ZArith Lia Ascii String.
From Stdlib Require Import Permutation Sorted DecimalString DecimalN.
Import ListNotations.

Local Open Scope string_scope.
Local Open Scope list_scope.
Local Open Scope Z_scope.

(** ** The JavaScript built-ins the code relies on *)

Module JS.

Definition code (c : ascii) : nat := nat_of_ascii c.

Definition between (lo hi : nat) (c : ascii) : bool :=
  (Nat.leb lo (code c) && Nat.leb (code c) hi)%bool.

(** [String.prototype.toLowerCase], one code unit at a time: A-Z and the
    Latin-1 capitals U+00C0..U+00DE (U+00D7, the multiplication sign, is not
    a letter) move up by 32. *)
Definition lowerChar (c : ascii) : ascii :=
  if (between 65 90 c || (between 192 222 c && negb (Nat.eqb (code c) 215)))%bool
  then ascii_of_nat (code c + 32)
  else c.

Fixpoint toLowerCase (s : string) : string :=
  match s with
  | EmptyString => EmptyString
  | String c s' => String (lowerChar c) (toLowerCase s')
  end.

(** [s.startsWith(t)]. *)
Fixpoint startsWith (s t : string) {struct t} : bool :=
  match t, s with
  | EmptyString, _ => true
  | String _ _, EmptyString => false
  | String b t', String a s' => (Ascii.eqb a b && startsWith s' t')%bool
  end.

(** [s.includes(t)]: [t] starts at some position of [s]. *)
Fixpoint includes (s t : string) : bool :=
  (startsWith s t
   || match s with
      | EmptyString => false
      | String _ s' => includes s' t
      end)%bool.

(** [s.endsWith(t)]: some suffix of [s] is [t]. *)
Fixpoint endsWith (s t : string) : bool :=
  (String.eqb s t
   || match s with
      | EmptyString => false
      | String _ s' => endsWith s' t
      end)%bool.

(** The character classes of a regular expression without the [u] flag. *)

(** [\s], which is also what [trim] strips: TAB, LF, VT, FF, CR, space and
    the no-break space U+00A0. *)
Definition isSpace (c : ascii) : bool :=
  (between 9 13 c || Nat.eqb (code c) 32 || Nat.eqb (code c) 160)%bool.

(** [\d]. *)
Definition isDigit (c : ascii) : bool := between 48 57 c.

(** [\w]: letters, digits and the underscore. *)
Definition isWord (c : ascii) : bool :=
  (between 97 122 c || between 65 90 c || isDigit c || Nat.eqb (code c) 95)%bool.

(** [.] matches every code unit but a line terminator (LF and CR here). *)
Definition isDot (c : ascii) : bool :=
  negb (Nat.eqb (code c) 10 || Nat.eqb (code c) 13)%bool.

(** The longest prefix of [s] made of [p]-characters, and what follows. *)
Fixpoint span (p : ascii -> bool) (s : string) : string * string :=
  match s with
  | EmptyString => (EmptyString, EmptyString)
  | String c s' =>
      if p c then let (a, b) := span p s' in (String c a, b)
      else (EmptyString, s)
  end.

Fixpoint allChars (p : ascii -> bool) (s : string) : bool :=
  match s with
  | EmptyString => true
  | String c s' => (p c && allChars p s')%bool
  end.

Fixpoint dropSpaces (s : string) : string :=
  match s with
  | EmptyString => EmptyString
  | String c s' => if isSpace c then dropSpaces s' else s
  end.

(** Remove the white space at the end: keep a character when it is not a
    space or when something is kept after it. *)
Fixpoint trimEnd (s : string) : string :=
  match s with
  | EmptyString => EmptyString
  | String c s' =>
      match trimEnd s' with
      | EmptyString => if isSpace c then EmptyString else String c EmptyString
      | kept => String c kept
      end
  end.

(** [String.prototype.trim]. *)
Definition trim (s : string) : string := trimEnd (dropSpaces s).

(** A whole-word occurrence, [/\bword\b/.test(s)], for a [word] that starts
    and ends with a word character: [word] occurs at a position where the
    code unit before it (if any) and the code unit after it (if any) are not
    word characters.  [prevIsWord] tells whether the code unit before the
    current position is a word character. *)
Definition boundaryAfter (s : string) (n : nat) : bool :=
  match String.get n s with
  | None => true
  | Some c => negb (isWord c)
  end.

Fixpoint hasWordFrom (prevIsWord : bool) (s word : string) : bool :=
  ((negb prevIsWord && startsWith s word && boundaryAfter s (String.length word))
   || match s with
      | EmptyString => false
      | String c s' => hasWordFrom (isWord c) s' word
      end)%bool.

Definition hasWord (s word : string) : bool := hasWordFrom false s word.

(** The line feed, code unit 10. *)
Definition lineFeed : string := String (ascii_of_nat 10) EmptyString.

(** [Number(digits)] for a string of decimal digits (exact: the version
    components the code reads are small integers). *)
Fixpoint digitsValue (acc : Z) (s : string) : Z :=
  match s with
  | EmptyString => acc
  | String c s' => digitsValue (acc * 10 + Z.of_nat (code c - 48)) s'
  end.

Definition Number (digits : string) : Z := digitsValue 0 digits.

(** The decimal text of a non-negative integer, as a template literal
    prints it. *)
Definition numberText (n : Z) : string :=
  NilZero.string_of_uint (N.to_uint (Z.to_N n)).

(** [Array.prototype.sort(compare)].  The language specification leaves the
    algorithm open but fixes the result for a consistent comparator: the
    elements in ascending order of [compare], elements that compare equal in
    their original order (the sort is stable).  Insertion from the right is
    one such algorithm: an element goes in front of the first element of
    the sorted tail that it does not compare greater than. *)
Section Sort.
Context {A : Type} (compare : A -> A -> Z).

Fixpoint insertSorted (x : A) (l : list A) : list A :=
  match l with
  | [] => [x]
  | y :: l' => if compare x y <=? 0 then x :: l else y :: insertSorted x l'
  end.

Definition sort (l : list A) : list A := fold_right insertSorted [] l.
End Sort.

(** [Array.prototype.reduce] with the element index passed to the callback. *)
Section Reduce.
Context {A B : Type} (f : B -> A -> nat -> B).

Fixpoint reduceFrom (idx : nat) (acc : B) (l : list A) : B :=
  match l with
  | [] => acc
  | x :: l' => reduceFrom (S idx) (f acc x idx) l'
  end.

Definition reduce (init : B) (l : list A) : B := reduceFrom 0%nat init l.
End Reduce.

(** [array.some(p)] is [existsb], [array.every(p)] is [forallb],
    [array.find(p)] is [find], [array.filter(p)] is [filter],
    [array[0] ?? null] is [hd_error]. *)

End JS.

(** ** The Release Resolver: [src/app/downloads/page.tsx] *)

Module Downloads.
Import JS.

Record ReleaseAsset := {
  name : string;
  browser_download_url : string;
  size : Z
}.

Record GitHubRelease := {
  id : Z;
  release_name : string;
  tag_name : string;
  html_url : string;
  published_at : string;
  prerelease : bool;
  draft : bool;
  assets : list ReleaseAsset
}.

(** The platform tag of a slot, ["windows" | "mac-arm64" | "mac-x64"]. *)
Inductive Platform := Windows | MacArm64 | MacX64.

Record DownloadSlot := {
  label : string;
  platform : Platform;
  asset : option ReleaseAsset
}.

(** The value of a query parameter: [string | string[] | undefined]. *)
Inductive SearchParam :=
| Undefined
| Single (value : string)
| Many (values : list string).

Definition parseIncludePrereleases (value : SearchParam) : bool :=
  match value with
  | Many values =>
      (existsb (String.eqb "1") values || existsb (String.eqb "true") values)%bool
  | Single v => (String.eqb v "1" || String.eqb v "true")%bool
  | Undefined => false
  end.

Definition downloadableExtensions : list string :=
  [".exe"; ".msi"; ".dmg"; ".pkg"; ".zip"; ".tar.gz"].

Definition isDownloadableAsset (name : string) : bool :=
  let lower := toLowerCase name in
  existsb (fun ext => endsWith lower ext) downloadableExtensions.

Definition isWindowsAsset (name : string) : bool :=
  let lower := toLowerCase name in
  (includes lower "win" || endsWith lower ".exe" || endsWith lower ".msi")%bool.

Definition isMacAsset (name : string) : bool :=
  let lower := toLowerCase name in
  (includes lower "mac" || includes lower "darwin"
   || endsWith lower ".dmg" || endsWith lower ".pkg")%bool.

Inductive MacArch := Arm64 | X64 | UnknownArch.

Definition MacArch_eqb (a b : MacArch) : bool :=
  match a, b with
  | Arm64, Arm64 | X64, X64 | UnknownArch, UnknownArch => true
  | _, _ => false
  end.

Definition getMacAssetArchitecture (name : string) : MacArch :=
  let lower := toLowerCase name in
  if ((hasWord lower "arm64" || hasWord lower "aarch64")
      || includes lower "apple-silicon"
      || includes lower "apple_silicon")%bool
  then Arm64
  else if ((hasWord lower "x64" || hasWord lower "x86_64" || hasWord lower "amd64")
           || hasWord lower "intel")%bool
  then X64
  else UnknownArch.

Definition isInstallerAsset (name : string) : bool :=
  let lower := toLowerCase name in
  (includes lower "setup" || endsWith lower ".msi"
   || endsWith lower ".dmg" || endsWith lower ".pkg")%bool.

Definition isPortableAsset (name : string) : bool :=
  let lower := toLowerCase name in
  (includes lower "portable" || endsWith lower ".zip" || endsWith lower ".tar.gz"
   || (endsWith lower ".exe" && negb (includes lower "setup")))%bool.

(** The score the comparator of [chooseBestAsset] computes for one side:
    [preferredTerms.reduce((score, term, idx) => lower.includes(term)
       ? score + (preferredTerms.length - idx) * 10 : score, 0)]. *)
Definition termsScore (preferredTerms : list string) (lower : string) : Z :=
  reduce
    (fun score term idx =>
       if includes lower term
       then score + (Z.of_nat (List.length preferredTerms) - Z.of_nat idx) * 10
       else score)
    0 preferredTerms.

Definition compareAssets (preferredTerms : list string) (a b : ReleaseAsset) : Z :=
  let aLower := toLowerCase (name a) in
  let bLower := toLowerCase (name b) in
  let aScore := termsScore preferredTerms aLower in
  let bScore := termsScore preferredTerms bLower in
  if negb (aScore =? bScore) then bScore - aScore
  else size b - size a.

Definition chooseBestAsset (assets : list ReleaseAsset) (preferredTerms : list string)
  : option ReleaseAsset :=
  if Nat.eqb (List.length assets) 0 then None
  else
    let ranked := sort (compareAssets preferredTerms) assets in
    hd_error ranked.

(** The local constants of [buildDownloadSlots], each a function of the
    release. *)
Section Pools.
Variable release : GitHubRelease.

Definition downloadableAssets : list ReleaseAsset :=
  filter (fun asset => isDownloadableAsset (name asset)) (assets release).

Definition windowsAssets : list ReleaseAsset :=
  filter (fun asset => isWindowsAsset (name asset)) downloadableAssets.
Definition macAssets : list ReleaseAsset :=
  filter (fun asset => isMacAsset (name asset)) downloadableAssets.

Definition windowsInstallerAssets : list ReleaseAsset :=
  filter (fun asset => isInstallerAsset (name asset)) windowsAssets.
Definition windowsPortableAssets : list ReleaseAsset :=
  filter (fun asset => isPortableAsset (name asset)) windowsAssets.

Definition macArm64Assets : list ReleaseAsset :=
  filter (fun asset => MacArch_eqb (getMacAssetArchitecture (name asset)) Arm64) macAssets.
Definition macX64Assets : list ReleaseAsset :=
  filter (fun asset => MacArch_eqb (getMacAssetArchitecture (name asset)) X64) macAssets.
Definition macUnknownArchAssets : list ReleaseAsset :=
  filter (fun asset => MacArch_eqb (getMacAssetArchitecture (name asset)) UnknownArch)
    macAssets.

Definition macArm64InstallerAssets : list ReleaseAsset :=
  filter (fun asset => isInstallerAsset (name asset)) macArm64Assets.
Definition macArm64PortableAssets : list ReleaseAsset :=
  filter (fun asset => isPortableAsset (name asset)) macArm64Assets.
Definition macX64InstallerAssets : list ReleaseAsset :=
  filter (fun asset => isInstallerAsset (name asset)) macX64Assets.
Definition macX64PortableAssets : list ReleaseAsset :=
  filter (fun asset => isPortableAsset (name asset)) macX64Assets.
Definition macUnknownInstallerAssets : list ReleaseAsset :=
  filter (fun asset => isInstallerAsset (name asset)) macUnknownArchAssets.
Definition macUnknownPortableAssets : list ReleaseAsset :=
  filter (fun asset => isPortableAsset (name asset)) macUnknownArchAssets.

(** The first argument of [chooseBestAsset] in each mac slot:
    [exact.length > 0 ? exact : unknown]. *)
Definition poolOrFallback (exact unknown : list ReleaseAsset) : list ReleaseAsset :=
  if Nat.ltb 0 (List.length exact) then exact else unknown.

Definition macArm64InstallerPool : list ReleaseAsset :=
  poolOrFallback macArm64InstallerAssets macUnknownInstallerAssets.
Definition macArm64PortablePool : list ReleaseAsset :=
  poolOrFallback macArm64PortableAssets macUnknownPortableAssets.
Definition macX64InstallerPool : list ReleaseAsset :=
  poolOrFallback macX64InstallerAssets macUnknownInstallerAssets.
Definition macX64PortablePool : list ReleaseAsset :=
  poolOrFallback macX64PortableAssets macUnknownPortableAssets.
End Pools.

Record DownloadSlots := {
  windowsInstaller : DownloadSlot;
  windowsPortable : DownloadSlot;
  macArm64Installer : DownloadSlot;
  macArm64Portable : DownloadSlot;
  macX64Installer : DownloadSlot;
  macX64Portable : DownloadSlot
}.

Definition buildDownloadSlots (release : GitHubRelease) : DownloadSlots := {|
  windowsInstaller := {|
    label := "Windows Installer";
    platform := Windows;
    asset := chooseBestAsset (windowsInstallerAssets release) ["setup"; ".msi"; ".exe"]
  |};
  windowsPortable := {|
    label := "Windows Portable";
    platform := Windows;
    asset := chooseBestAsset (windowsPortableAssets release) ["portable"; ".exe"; ".zip"]
  |};
  macArm64Installer := {|
    label := "macOS (Apple Silicon) Installer";
    platform := MacArm64;
    asset := chooseBestAsset (macArm64InstallerPool release) ["dmg"; "pkg"]
  |};
  macArm64Portable := {|
    label := "macOS (Apple Silicon) Portable";
    platform := MacArm64;
    asset := chooseBestAsset (macArm64PortablePool release) ["portable"; ".zip"; ".tar.gz"]
  |};
  macX64Installer := {|
    label := "macOS (Intel) Installer";
    platform := MacX64;
    asset := chooseBestAsset (macX64InstallerPool release) ["dmg"; "pkg"]
  |};
  macX64Portable := {|
    label := "macOS (Intel) Portable";
    platform := MacX64;
    asset := chooseBestAsset (macX64PortablePool release) ["portable"; ".zip"; ".tar.gz"]
  |}
|}.

(** The [slots] property [DownloadsPage] passes to [DownloadCards]. *)
Definition slotList (slots : DownloadSlots) : list DownloadSlot :=
  [ windowsInstaller slots; windowsPortable slots;
    macArm64Installer slots; macArm64Portable slots;
    macX64Installer slots; macX64Portable slots ].

(** What [await fetch(...)] resolved to, as far as [fetchReleases] looks at
    it: the [ok] flag and the outcome of [response.json()], which rejects
    ([None]) when the body is not JSON. *)
Record Response := {
  ok : bool;
  json : option (list GitHubRelease)
}.

(** The outcome of an async function: it rejects or it resolves. *)
Inductive Outcome (A : Type) :=
| Thrown
| Returned (value : A).
Arguments Thrown {A}.
Arguments Returned {A} value.

Definition fetchReleases (response : Response) : Outcome (list GitHubRelease) :=
  if negb (ok response) then Returned []
  else
    match json response with
    | None => Thrown
    | Some data => Returned (filter (fun release => negb (draft release)) data)
    end.

(** [stableReleases] of [DownloadsPage]. *)
Definition stableReleases (allReleases : list GitHubRelease) : list GitHubRelease :=
  filter (fun release => negb (prerelease release)) allReleases.

(** What [DownloadsPage] decides before it renders. *)
Record Selection := {
  hasStableLatest : bool;
  effectiveIncludePrereleases : bool;
  selectedRelease : option GitHubRelease;
  slots : option DownloadSlots
}.

Definition selectRelease (userIncludePrereleases : bool) (allReleases : list GitHubRelease)
  : Selection :=
  let stableReleases := stableReleases allReleases in
  let hasStableLatest := Nat.ltb 0 (List.length stableReleases) in
  let effectiveIncludePrereleases := (userIncludePrereleases || negb hasStableLatest)%bool in
  let selectedRelease :=
    if effectiveIncludePrereleases then hd_error allReleases else hd_error stableReleases in
  let slots :=
    match selectedRelease with
    | Some release => Some (buildDownloadSlots release)
    | None => None
    end in
  {| hasStableLatest := hasStableLatest;
     effectiveIncludePrereleases := effectiveIncludePrereleases;
     selectedRelease := selectedRelease;
     slots := slots |}.

(** What the returned JSX shows, element by element. *)
Record PageView := {
  toggleChecked : bool;
  toggleDisabled : bool;
  autoPrereleaseNote : bool;
  noReleaseNotice : bool;
  releaseShown : option GitHubRelease;
  cards : option (list DownloadSlot)
}.

Definition render (s : Selection) : PageView := {|
  toggleChecked := effectiveIncludePrereleases s;
  toggleDisabled := negb (hasStableLatest s);
  autoPrereleaseNote := negb (hasStableLatest s);
  noReleaseNotice := match selectedRelease s with None => true | Some _ => false end;
  releaseShown :=
    match selectedRelease s, slots s with
    | Some release, Some _ => Some release
    | _, _ => None
    end;
  cards :=
    match selectedRelease s, slots s with
    | Some _, Some sl => Some (slotList sl)
    | _, _ => None
    end
|}.

Definition DownloadsPage (includePrereleases : SearchParam) (response : Response)
  : Outcome PageView :=
  let userIncludePrereleases := parseIncludePrereleases includePrereleases in
  match fetchReleases response with
  | Thrown => Thrown
  | Returned allReleases => Returned (render (selectRelease userIncludePrereleases allReleases))
  end.

(** *** The statements of the specification, in its words *)

(** The score of an asset: the sum, over the preferred terms its lower-cased
    name contains, of ten times the number of terms remaining from that term
    on (the term itself included), so that the first of [n] terms weighs
    [n * 10] and the last weighs [10]. *)
Fixpoint weightedTermSum (terms : list string) (lower : string) : Z :=
  match terms with
  | [] => 0
  | term :: rest =>
      (if includes lower term then Z.of_nat (List.length terms) * 10 else 0)
      + weightedTermSum rest lower
  end.

Definition assetScore (preferredTerms : list string) (a : ReleaseAsset) : Z :=
  weightedTermSum preferredTerms (toLowerCase (name a)).

(** [best] is a candidate of [pool], no candidate scores higher, and no
    candidate of the same score is larger. *)
Definition HighestScoring (preferredTerms : list string) (pool : list ReleaseAsset)
  (best : ReleaseAsset) : Prop :=
  In best pool
  /\ (forall a, In a pool -> assetScore preferredTerms a <= assetScore preferredTerms best)
  /\ (forall a, In a pool ->
                assetScore preferredTerms a = assetScore preferredTerms best ->
                size a <= size best).

(** The candidate pool of each slot, in the order of [slotList]. *)
Definition slotPools (release : GitHubRelease) : list (list ReleaseAsset) :=
  [ windowsInstallerAssets release; windowsPortableAssets release;
    macArm64InstallerPool release; macArm64PortablePool release;
    macX64InstallerPool release; macX64PortablePool release ].

(** The downloadable mac assets of a release with a given architecture and a
    given style ([isInstallerAsset] or [isPortableAsset]), in release order. *)
Definition IsMacCandidate (arch : MacArch) (style : string -> bool) (a : ReleaseAsset) : Prop :=
  isDownloadableAsset (name a) = true
  /\ isMacAsset (name a) = true
  /\ getMacAssetArchitecture (name a) = arch
  /\ style (name a) = true.

Definition macCandidates (release : GitHubRelease) (arch : MacArch) (style : string -> bool)
  : list ReleaseAsset :=
  filter
    (fun a =>
       (isDownloadableAsset (name a) && isMacAsset (name a)
        && MacArch_eqb (getMacAssetArchitecture (name a)) arch && style (name a))%bool)
    (assets release).

(** The fallback rule for the pool of one mac slot. *)
Definition PoolWithFallback (release : GitHubRelease) (arch : MacArch)
  (style : string -> bool) (pool : list ReleaseAsset) : Prop :=
  ((exists a, In a (assets release) /\ IsMacCandidate arch style a) ->
   pool = macCandidates release arch style
   /\ forall a, In a pool <-> In a (assets release) /\ IsMacCandidate arch style a)
  /\ (~ (exists a, In a (assets release) /\ IsMacCandidate arch style a) ->
      pool = macCandidates release UnknownArch style
      /\ forall a, In a pool <-> In a (assets release) /\ IsMacCandidate UnknownArch style a).

End Downloads.

(** ** The Client Platform Matcher: [DownloadCards] in [src/unnamed/part_001] *)

Module Cards.
Import JS Downloads.

(** [DetectedOS]: ["windows" | "mac-arm64" | "mac-x64" | "mac" | "other" |
    "unknown"]. *)
Inductive DetectedOS :=
| OsWindows
| OsMacArm64
| OsMacX64
| OsMac
| OsOther
| OsUnknown.

(** Both enumerations are strings at run time, and [===] compares the
    strings. *)
Definition platformTag (p : Platform) : string :=
  match p with
  | Windows => "windows"
  | MacArm64 => "mac-arm64"
  | MacX64 => "mac-x64"
  end.

Definition osTag (os : DetectedOS) : string :=
  match os with
  | OsWindows => "windows"
  | OsMacArm64 => "mac-arm64"
  | OsMacX64 => "mac-x64"
  | OsMac => "mac"
  | OsOther => "other"
  | OsUnknown => "unknown"
  end.

Definition getRelevanceScore (slot : DownloadSlot) (os : DetectedOS) : Z :=
  if (String.eqb (osTag os) "unknown" || String.eqb (osTag os) "other")%bool then 0
  else if String.eqb (osTag os) "windows" then
    (if String.eqb (platformTag (platform slot)) "windows" then 0 else 2)
  else if String.eqb (osTag os) "mac-arm64" then
    (if String.eqb (platformTag (platform slot)) "mac-arm64" then 0
     else if String.eqb (platformTag (platform slot)) "mac-x64" then 1
     else 2)
  else if String.eqb (osTag os) "mac-x64" then
    (if String.eqb (platformTag (platform slot)) "mac-x64" then 0
     else if String.eqb (platformTag (platform slot)) "mac-arm64" then 1
     else 2)
  else if String.eqb (osTag os) "mac" then
    (if String.eqb (platformTag (platform slot)) "windows" then 2 else 0)
  else 0.

(** [orderedSlots]: [[...slots].sort((a, b) => getRelevanceScore(a, os) -
    getRelevanceScore(b, os))]. *)
Definition orderedSlots (slots : list DownloadSlot) (os : DetectedOS) : list DownloadSlot :=
  sort (fun a b => getRelevanceScore a os - getRelevanceScore b os) slots.

(** [isApplicable], computed in the callback of [orderedSlots.map]. *)
Definition isApplicable (slot : DownloadSlot) (os : DetectedOS) : bool :=
  (String.eqb (osTag os) "unknown"
   || String.eqb (osTag os) "other"
   || (String.eqb (osTag os) "mac"
       && (String.eqb (platformTag (platform slot)) "mac-arm64"
           || String.eqb (platformTag (platform slot)) "mac-x64"))
   || String.eqb (platformTag (platform slot)) (osTag os))%bool.

(** One rendered [<article>]: the slot it shows, whether it is applicable
    (full strength) and its position [idx] in the displayed order. *)
Record Card := {
  cardSlot : DownloadSlot;
  cardApplicable : bool;
  cardIndex : nat
}.

Fixpoint mapWithIndex {A B : Type} (f : A -> nat -> B) (idx : nat) (l : list A) : list B :=
  match l with
  | [] => []
  | x :: l' => f x idx :: mapWithIndex f (S idx) l'
  end.

Definition DownloadCards (slots : list DownloadSlot) (os : DetectedOS) : list Card :=
  mapWithIndex
    (fun slot idx =>
       {| cardSlot := slot; cardApplicable := isApplicable slot os; cardIndex := idx |})
    0%nat (orderedSlots slots os).

(** The relevance table of the specification, row by row. *)
Definition relevanceTable (os : DetectedOS) (p : Platform) : Z :=
  match os, p with
  | OsWindows, Windows => 0
  | OsWindows, MacArm64 => 2
  | OsWindows, MacX64 => 2
  | OsMacArm64, Windows => 2
  | OsMacArm64, MacArm64 => 0
  | OsMacArm64, MacX64 => 1
  | OsMacX64, Windows => 2
  | OsMacX64, MacArm64 => 1
  | OsMacX64, MacX64 => 0
  | OsMac, Windows => 2
  | OsMac, MacArm64 => 0
  | OsMac, MacX64 => 0
  | OsOther, _ => 0
  | OsUnknown, _ => 0
  end.

(** The slots of one platform. *)
Definition hasPlatform (p : Platform) (slot : DownloadSlot) : bool :=
  String.eqb (platformTag (platform slot)) (platformTag p).

(** The slots of one relevance score. *)
Definition scoreIs (os : DetectedOS) (score : Z) (slot : DownloadSlot) : bool :=
  getRelevanceScore slot os =? score.

End Cards.

(** ** The roadmap and the upcoming release plan: [src/app/about/page.tsx] *)

Module About.
Import JS.

Record ParsedSemver := {
  major : Z;
  minor : Z;
  patch : Z
}.

Record RoadmapItem := {
  done : bool;
  text : string
}.

Record RoadmapMilestone := {
  heading : string;
  version : ParsedSemver;
  items : list RoadmapItem
}.

(** The object of [UpcomingReleasePlan]; the type itself is [option Plan]
    (the object or [null]).  Its fields [items] and [sourceUrl] are
    [planItems] and [planSourceUrl] here. *)
Record Plan := {
  currentVersion : option string;
  nextVersionHeading : string;
  planItems : list string;
  planSourceUrl : option string;
  hasNextVersion : bool
}.

Definition UpcomingReleasePlan : Type := option Plan.

Definition isChar (c : ascii) (lit : string) : bool := String.eqb (String c EmptyString) lit.

(** [(\d+)\.(\d+)\.(\d+)\b] matched at the start of [s].  Each [\d+] is
    greedy and must take its whole run of digits: after a shorter run comes a
    digit, which is neither the [.] nor the word boundary the pattern wants
    next. *)
Definition semverAt (s : string) : option (string * string * string) :=
  let (d1, r1) := span isDigit s in
  match d1, r1 with
  | String _ _, String dot1 r1' =>
      if isChar dot1 "." then
        let (d2, r2) := span isDigit r1' in
        match d2, r2 with
        | String _ _, String dot2 r2' =>
            if isChar dot2 "." then
              let (d3, r3) := span isDigit r2' in
              match d3 with
              | String _ _ => if boundaryAfter r3 0 then Some (d1, d2, d3) else None
              | EmptyString => None
              end
            else None
        | _, _ => None
        end
      else None
  | _, _ => None
  end.

(** The leftmost match of [v?(\d+)\.(\d+)\.(\d+)\b] (flag [i]) when
    [optionalV], of [(\d+)\.(\d+)\.(\d+)\b] otherwise: at each position the
    [v] is tried first, then the empty alternative of [v?]. *)
Fixpoint searchSemver (optionalV : bool) (s : string) : option (string * string * string) :=
  let here :=
    match s with
    | String c s' =>
        if (optionalV && (isChar c "v" || isChar c "V"))%bool then
          match semverAt s' with
          | Some m => Some m
          | None => semverAt s
          end
        else semverAt s
    | EmptyString => None
    end in
  match here with
  | Some m => Some m
  | None =>
      match s with
      | String _ s' => searchSemver optionalV s'
      | EmptyString => None
      end
  end.

(** [value.replace(/^v/i, "")]. *)
Definition stripLeadingV (s : string) : string :=
  match s with
  | String c s' => if (isChar c "v" || isChar c "V")%bool then s' else s
  | EmptyString => s
  end.

Definition parseSemver (value : string) : option ParsedSemver :=
  let cleaned := stripLeadingV (trim value) in
  match searchSemver false cleaned with
  | None => None
  | Some (m1, m2, m3) =>
      Some {| major := Number m1; minor := Number m2; patch := Number m3 |}
  end.

Definition formatSemver (value : ParsedSemver) : string :=
  ("v" ++ numberText (major value) ++ "." ++ numberText (minor value)
       ++ "." ++ numberText (patch value))%string.

Definition compareSemver (a b : ParsedSemver) : Z :=
  if negb (major a =? major b) then major a - major b
  else if negb (minor a =? minor b) then minor a - minor b
  else patch a - patch b.

(** [markdown.split(/\r?\n/)]: a line ends at LF (code 10), or at CR LF
    (codes 13 and 10). *)
Definition consToHead (c : ascii) (lines : list string) : list string :=
  match lines with
  | [] => [String c EmptyString]
  | l :: rest => String c l :: rest
  end.

Fixpoint splitLines (s : string) : list string :=
  match s with
  | EmptyString => [EmptyString]
  | String c rest =>
      if Nat.eqb (code c) 10 then EmptyString :: splitLines rest
      else
        match rest with
        | String c2 rest2 =>
            if (Nat.eqb (code c) 13 && Nat.eqb (code c2) 10)%bool
            then EmptyString :: splitLines rest2
            else consToHead c (splitLines rest)
        | EmptyString => [String c EmptyString]
        end
  end.

Fixpoint lastChar (c : ascii) (s : string) : ascii :=
  match s with
  | EmptyString => c
  | String c' s' => lastChar c' s'
  end.

(** [\s+(.+)$] matched at the start of [s]; the result is the text of the
    group.  The greedy [\s+] takes the whole run of white space; what follows
    must reach the end of the string without a line terminator.  When [s] is
    white space only, [\s+] gives back its last character to [(.+)]. *)
Definition spacesThenRest (s : string) : option string :=
  let (ws, rest) := span isSpace s in
  match ws with
  | EmptyString => None
  | String w ws' =>
      match rest with
      | String _ _ => if allChars isDot rest then Some rest else None
      | EmptyString =>
          match ws' with
          | EmptyString => None
          | String w' ws'' =>
              let c := lastChar w' ws'' in
              if isDot c then Some (String c EmptyString) else None
          end
      end
  end.

Definition dropTwo (s : string) : string :=
  match s with
  | String _ (String _ s') => s'
  | _ => EmptyString
  end.

(** [line.match(/^##\s+(.+)$/)]: the text of group 1. *)
Definition headingMatch (line : string) : option string :=
  if startsWith line "##" then spacesThenRest (dropTwo line) else None.

(** [heading.match(/v?(\d+\.\d+\.\d+)\b/i)]: the text of group 1. *)
Definition versionMatch (heading : string) : option string :=
  match searchSemver true heading with
  | None => None
  | Some (m1, m2, m3) => Some (m1 ++ "." ++ m2 ++ "." ++ m3)%string
  end.

(** [line.match(/^[-*]\s+\[([ xX])\]\s+(.+)$/)]: groups 1 and 2. *)
Definition taskMatch (line : string) : option (ascii * string) :=
  match line with
  | String bullet afterBullet =>
      if (isChar bullet "-" || isChar bullet "*")%bool then
        let (ws, r) := span isSpace afterBullet in
        match ws, r with
        | String _ _, String open (String mark (String close afterBox)) =>
            if (isChar open "[" && (isChar mark " " || isChar mark "x" || isChar mark "X")
                && isChar close "]")%bool
            then
              match spacesThenRest afterBox with
              | Some rest => Some (mark, rest)
              | None => None
              end
            else None
        | _, _ => None
        end
      else None
  | EmptyString => None
  end.

(** The state of the loop of [parseRoadmapMarkdown].  [current], when it is
    not [null], is the very object pushed last on [milestones]: pushing an item
    on [current.items] changes the last element of [milestones]. *)
Record ParseState := {
  milestones : list RoadmapMilestone;
  currentIsLast : bool
}.

Fixpoint updateLast {A : Type} (f : A -> A) (l : list A) : list A :=
  match l with
  | [] => []
  | [x] => [f x]
  | x :: l' => x :: updateLast f l'
  end.

Definition pushItem (item : RoadmapItem) (m : RoadmapMilestone) : RoadmapMilestone :=
  {| heading := heading m; version := version m; items := items m ++ [item] |}.

Definition versionOfHeading (heading : string) : option ParsedSemver :=
  match versionMatch heading with
  | Some group1 => parseSemver group1
  | None => None
  end.

Definition parseLine (st : ParseState) (line : string) : ParseState :=
  match headingMatch line with
  | Some group1 =>
      let heading := trim group1 in
      match versionOfHeading heading with
      | Some version =>
          {| milestones :=
               milestones st ++ [{| heading := heading; version := version; items := [] |}];
             currentIsLast := true |}
      | None => {| milestones := milestones st; currentIsLast := false |}
      end
  | None =>
      match taskMatch line with
      | Some (mark, rest) =>
          if currentIsLast st then
            {| milestones :=
                 updateLast
                   (pushItem {| done := String.eqb (toLowerCase (String mark EmptyString)) "x";
                                text := trim rest |})
                   (milestones st);
               currentIsLast := true |}
          else st
      | None => st
      end
  end.

Definition parseRoadmapMarkdown (markdown : string) : list RoadmapMilestone :=
  let lines := splitLines markdown in
  milestones (fold_left parseLine lines {| milestones := []; currentIsLast := false |}).

(** What [fetchRoadmapMarkdown] resolves to when it is not [null]. *)
Record Roadmap := {
  markdown : string;
  sourceUrl : string
}.

(** The outcome of an awaited call: the promise rejects or resolves. *)
Inductive Awaited (A : Type) :=
| Rejected
| Resolved (value : A).
Arguments Rejected {A}.
Arguments Resolved {A} value.

Definition hasOpenWork (milestone : RoadmapMilestone) : bool :=
  existsb (fun item => negb (done item)) (items milestone).

Definition uncheckedTexts (milestone : RoadmapMilestone) : list string :=
  map text (filter (fun item => negb (done item)) (items milestone)).

Definition orPlaceholder (l : list string) : list string :=
  if Nat.ltb 0 (List.length l) then l else ["No tasks listed for this milestone."].

(** [fetchUpcomingReleasePlan], with the two awaited calls
    [fetchRoadmapMarkdown()] and [fetchCurrentStableVersion()] as inputs; the
    second is awaited only when the roadmap has a milestone.  Whatever is
    thrown inside is caught and gives [null]. *)
Definition fetchUpcomingReleasePlan
  (roadmapFetch : Awaited (option Roadmap))
  (versionFetch : Awaited (option ParsedSemver)) : UpcomingReleasePlan :=
  match roadmapFetch with
  | Rejected => None
  | Resolved None => None
  | Resolved (Some roadmap) =>
      let milestones :=
        sort (fun a b => compareSemver (version a) (version b))
          (parseRoadmapMarkdown (markdown roadmap)) in
      if Nat.eqb (List.length milestones) 0 then None
      else
        match versionFetch with
        | Rejected => None
        | Resolved currentVersion =>
            let finish (nextMilestone : option RoadmapMilestone) : UpcomingReleasePlan :=
              match nextMilestone with
              | None => None
              | Some nextMilestone =>
                  let uncheckedItems := uncheckedTexts nextMilestone in
                  let items :=
                    if Nat.ltb 0 (List.length uncheckedItems) then uncheckedItems
                    else map text (items nextMilestone) in
                  Some {| currentVersion :=
                            match currentVersion with
                            | Some v => Some (formatSemver v)
                            | None => None
                            end;
                          nextVersionHeading := heading nextMilestone;
                          planItems := orPlaceholder items;
                          planSourceUrl := Some (sourceUrl roadmap);
                          hasNextVersion := true |}
              end in
            match currentVersion with
            | Some current =>
                match find (fun milestone => 0 <? compareSemver (version milestone) current)
                        milestones with
                | Some nextMilestone => finish (Some nextMilestone)
                | None =>
                    match find hasOpenWork milestones with
                    | Some firstUpcomingWithWork =>
                        Some {| currentVersion := Some (formatSemver current);
                                nextVersionHeading := heading firstUpcomingWithWork;
                                planItems := orPlaceholder (uncheckedTexts firstUpcomingWithWork);
                                planSourceUrl := Some (sourceUrl roadmap);
                                hasNextVersion := true |}
                    | None =>
                        Some {| currentVersion := Some (formatSemver current);
                                nextVersionHeading := "No newer roadmap milestone listed yet";
                                planItems :=
                                  ["ROADMAP.md currently has no version higher than the latest stable release."];
                                planSourceUrl := Some (sourceUrl roadmap);
                                hasNextVersion := false |}
                    end
                end
            | None =>
                match hd_error milestones with
                | None => None
                | Some baseline =>
                    finish
                      (match find (fun milestone =>
                                     0 <? compareSemver (version milestone) (version baseline))
                               milestones with
                       | Some m => Some m
                       | None =>
                           match find hasOpenWork milestones with
                           | Some m => Some m
                           | None => hd_error milestones
                           end
                       end)
                end
            end
        end
  end.

(** *** Writing a roadmap *)

(** The usual way a roadmap is written: a [## heading] line for each
    milestone, followed by one [- [x] text] or [- [ ] text] line for each of
    its items. *)
Definition renderItem (item : RoadmapItem) : string :=
  ("- [" ++ (if done item then "x" else " ") ++ "] " ++ text item)%string.

Definition renderMilestone (milestone : RoadmapMilestone) : list string :=
  ("## " ++ heading milestone)%string :: map renderItem (items milestone).

Definition renderRoadmap (roadmap : list RoadmapMilestone) : string :=
  String.concat lineFeed (flat_map renderMilestone roadmap).

(** A text that a line can carry unchanged: not empty, no line terminator,
    no white space at either end. *)
Definition plainText (s : string) : bool :=
  match s with
  | EmptyString => false
  | String c s' =>
      (negb (isSpace c) && allChars isDot s && negb (isSpace (lastChar c s')))%bool
  end.

Definition WellFormedMilestone (milestone : RoadmapMilestone) : Prop :=
  plainText (heading milestone) = true
  /\ versionOfHeading (heading milestone) = Some (version milestone)
  /\ Forall (fun item => plainText (text item) = true) (items milestone).

End About.

(** ** Platform detection: [normalizeArchitecture] and [detectOS] in
    [src/unnamed/part_001] *)

Module Detect.
Import JS Downloads Cards.

(** The result of [normalizeArchitecture]: ["arm64" | "x64"] (or [null]). *)
Inductive Architecture := ArchArm64 | ArchX64.

(** [normalizeArchitecture(value, allowX64 = true)]; [value] is [undefined]
    ([None]) or a string, and the empty string is falsy. *)
Definition normalizeArchitecture (value : option string) (allowX64 : bool)
  : option Architecture :=
  match value with
  | None => None
  | Some v =>
      if String.eqb v "" then None
      else
        let lower := toLowerCase v in
        if (includes lower "arm64" || includes lower "aarch64"
            || String.eqb lower "arm" || includes lower "apple-silicon")%bool
        then Some ArchArm64
        else if (allowX64
                 && (includes lower "x64" || includes lower "x86_64"
                     || includes lower "amd64"))%bool
        then Some ArchX64
        else None
  end.

(** [navigator.userAgentData.getHighEntropyValues]: not a function, or a
    call that rejects, or one that resolves with an [architecture] that may be
    [undefined]. *)
Inductive HighEntropyValues :=
| NotAFunction
| Rejects
| ResolvesWith (architecture : option string).

Record UserAgentData := {
  uaPlatform : option string;
  uaArchitecture : option string;
  getHighEntropyValues : HighEntropyValues
}.

Record Navigator := {
  userAgentData : option UserAgentData;
  navigatorPlatform : string;
  userAgent : string
}.

(** What [detectOS] reads of [window]: the [os] parameter of
    [window.location.search] ([null] when absent) and the navigator. *)
Record Window := {
  osParam : option string;
  navigator : Navigator
}.

(** The development-only override, on the lower-cased parameter. *)
Definition forcedOS (forced : option string) : option DetectedOS :=
  match forced with
  | None => None
  | Some f =>
      if (String.eqb f "windows" || String.eqb f "win")%bool then Some OsWindows
      else if (String.eqb f "mac-arm64" || String.eqb f "arm64"
               || String.eqb f "mac-arm" || String.eqb f "macos-arm64")%bool
      then Some OsMacArm64
      else if (String.eqb f "mac-x64" || String.eqb f "x64" || String.eqb f "intel"
               || String.eqb f "mac-intel" || String.eqb f "macos-x64")%bool
      then Some OsMacX64
      else if (String.eqb f "mac" || String.eqb f "macos")%bool then Some OsMac
      else None
  end.

(** [s?.includes(t)] as a condition: [undefined] is falsy. *)
Definition optIncludes (s : option string) (t : string) : bool :=
  match s with
  | Some s => includes s t
  | None => false
  end.

(** The architecture after the structured API was asked: the high-entropy
    call is made only when the plain [architecture] gave nothing and the
    method exists; when it rejects, the architecture stays [null]. *)
Definition structuredArchitecture (uaData : option UserAgentData) : option Architecture :=
  let architecture :=
    normalizeArchitecture
      (match uaData with Some d => uaArchitecture d | None => None end) true in
  match architecture, uaData with
  | None, Some d =>
      match getHighEntropyValues d with
      | ResolvesWith highEntropyArchitecture =>
          normalizeArchitecture highEntropyArchitecture true
      | Rejects => architecture
      | NotAFunction => architecture
      end
  | _, _ => architecture
  end.

(** [detectOS]; [development] is [process.env.NODE_ENV === "development"],
    [window] is [None] when [typeof window === "undefined"]. *)
Definition detectOS (development : bool) (window : option Window) : DetectedOS :=
  match window with
  | None => OsOther
  | Some w =>
      match (if development
             then forcedOS (option_map toLowerCase (osParam w))
             else None) with
      | Some os => os
      | None =>
          let uaData := userAgentData (navigator w) in
          let fromUserAgentData :=
            option_map toLowerCase
              (match uaData with Some d => uaPlatform d | None => None end) in
          let architecture := structuredArchitecture uaData in
          if optIncludes fromUserAgentData "win" then OsWindows
          else if optIncludes fromUserAgentData "mac" then
            match architecture with
            | Some ArchArm64 => OsMacArm64
            | Some ArchX64 => OsMacX64
            | None => OsMac
            end
          else
            let platform := toLowerCase (navigatorPlatform (navigator w)) in
            if includes platform "win" then OsWindows
            else
              let fromUserAgent (_ : unit) : DetectedOS :=
                let userAgent := toLowerCase (userAgent (navigator w)) in
                let architecture :=
                  match architecture with
                  | Some a => Some a
                  | None => normalizeArchitecture (Some userAgent) false
                  end in
                if includes userAgent "windows" then OsWindows
                else if includes userAgent "mac os" then
                  match architecture with
                  | Some ArchArm64 => OsMacArm64
                  | Some ArchX64 => OsMacX64
                  | None => OsMac
                  end
                else OsOther in
              if includes platform "mac" then
                match architecture with
                | Some ArchArm64 => OsMacArm64
                | Some ArchX64 => OsMacX64
                | None => fromUserAgent tt
                end
              else fromUserAgent tt
      end
  end.

End Detect.

(** ** Where the current version and the roadmap come from:
    [fetchCurrentStableVersion] and [fetchRoadmapMarkdown] in
    [src/app/about/page.tsx] *)

Module Versions.
Import JS About.

(** [GitHubRelease] of the about page. *)
Record GitHubRelease := {
  tag_name : string;
  prerelease : bool;
  draft : bool
}.

(** A response whose body is read with [response.json()] (or [text()]),
    which may reject. *)
Record Response (A : Type) := {
  ok : bool;
  body : Awaited A
}.
Arguments ok {A} r.
Arguments body {A} r.

(** The response of the [releases/latest] page: after redirects, [url] is the
    resolved address. *)
Record PageResponse := {
  pageOk : bool;
  url : string
}.

(** Sequencing of awaited calls: a rejection propagates. *)
Definition await {A B : Type} (p : Awaited A) (k : A -> Awaited B) : Awaited B :=
  match p with
  | Rejected => Rejected
  | Resolved a => k a
  end.

Notation "x <- p ;; k" := (await p (fun x => k))
  (at level 61, p at next level, right associativity).

Definition isTagDelimiter (c : ascii) : bool :=
  (isChar c "/" || isChar c "?" || isChar c "#")%bool.

(** [resolvedUrl.match(/\/tag\/([^/?#]+)/i)]: group 1 of the leftmost match.
    [/tag/] is matched without regard to case, and the greedy class takes the
    whole run up to the next [/], [?] or [#]; a position where that run is
    empty does not match. *)
Fixpoint tagMatch (s : string) : option string :=
  let here :=
    if startsWith (toLowerCase s) "/tag/" then
      match span (fun c => negb (isTagDelimiter c))
              (String.substring 5 (String.length s - 5) s) with
      | (String c run, _) => Some (String c run)
      | (EmptyString, _) => None
      end
    else None in
  match here with
  | Some group1 => Some group1
  | None =>
      match s with
      | String _ s' => tagMatch s'
      | EmptyString => None
      end
  end.

(** [fetchCurrentStableVersion], with the three fetches it may make as
    inputs; a later fetch is looked at only when the earlier ones gave no
    version. *)
Definition fetchCurrentStableVersion
  (latestFetch : Awaited (Response GitHubRelease))
  (releasesFetch : Awaited (Response (list GitHubRelease)))
  (latestPageFetch : Awaited PageResponse) : Awaited (option ParsedSemver) :=
  latestResponse <- latestFetch ;;
  fromLatest <-
    (if ok latestResponse then
       latest <- body latestResponse ;;
       Resolved (parseSemver (tag_name latest))
     else Resolved None) ;;
  match fromLatest with
  | Some latestVersion => Resolved (Some latestVersion)
  | None =>
      releasesResponse <- releasesFetch ;;
      fromReleases <-
        (if ok releasesResponse then
           releases <- body releasesResponse ;;
           Resolved
             (match find (fun release => (negb (prerelease release) && negb (draft release))%bool)
                      releases with
              | Some stableRelease => parseSemver (tag_name stableRelease)
              | None => None
              end)
         else Resolved None) ;;
      match fromReleases with
      | Some stableVersion => Resolved (Some stableVersion)
      | None =>
          latestPageResponse <- latestPageFetch ;;
          if pageOk latestPageResponse then
            match tagMatch (url latestPageResponse) with
            | Some group1 =>
                match parseSemver group1 with
                | Some parsedFromUrl => Resolved (Some parsedFromUrl)
                | None => Resolved None
                end
            | None => Resolved None
            end
          else Resolved None
      end
  end.

(** The JSON of the contents API: [{ content?: string; encoding?: string }]. *)
Record ContentsJson := {
  content : option string;
  encoding : option string
}.

Definition ROADMAP_URL : string :=
  "https://raw.githubusercontent.com/FatalMistake02/mira/main/ROADMAP.md".

Definition ROADMAP_BLOB_URL : string :=
  "https://github.com/FatalMistake02/mira/blob/main/ROADMAP.md".

(** [content.replace(/\n/g, "")]. *)
Fixpoint removeLineFeeds (s : string) : string :=
  match s with
  | EmptyString => EmptyString
  | String c s' =>
      if Nat.eqb (code c) 10 then removeLineFeeds s' else String c (removeLineFeeds s')
  end.

Section FetchRoadmap.
(** [Buffer.from(text, "base64").toString("utf-8")], a built-in of the
    platform. *)
Variable decodeBase64 : string -> string.

Definition fetchRoadmapMarkdown
  (contentsFetch : Awaited (Response ContentsJson))
  (rawFetch : Awaited (Response string)) : Awaited (option Roadmap) :=
  contentsResponse <- contentsFetch ;;
  fromContents <-
    (if ok contentsResponse then
       data <- body contentsResponse ;;
       Resolved
         (match encoding data, content data with
          | Some enc, Some text =>
              if String.eqb enc "base64" then
                let decoded := decodeBase64 (removeLineFeeds text) in
                if Nat.ltb 0 (String.length (trim decoded))
                then Some {| markdown := decoded; sourceUrl := ROADMAP_BLOB_URL |}
                else None
              else None
          | _, _ => None
          end)
     else Resolved None) ;;
  match fromContents with
  | Some roadmap => Resolved (Some roadmap)
  | None =>
      rawResponse <- rawFetch ;;
      if negb (ok rawResponse) then Resolved None
      else
        markdown <- body rawResponse ;;
        if String.eqb (trim markdown) "" then Resolved None
        else Resolved (Some {| markdown := markdown; sourceUrl := ROADMAP_URL |})
  end.

(** [fetchUpcomingReleasePlan] over the fetches themselves: the version is
    asked for only when the roadmap has a milestone, so a rejection there
    cannot matter otherwise; any rejection gives [null]. *)
Definition upcomingReleasePlan
  (contentsFetch : Awaited (Response ContentsJson))
  (rawFetch : Awaited (Response string))
  (latestFetch : Awaited (Response GitHubRelease))
  (releasesFetch : Awaited (Response (list GitHubRelease)))
  (latestPageFetch : Awaited PageResponse) : UpcomingReleasePlan :=
  fetchUpcomingReleasePlan
    (fetchRoadmapMarkdown contentsFetch rawFetch)
    (fetchCurrentStableVersion latestFetch releasesFetch latestPageFetch).
End FetchRoadmap.

(** The lines of a roadmap that start a milestone, and the heading each
    gives. *)
Definition milestoneHeading (line : string) : option string :=
  match headingMatch line with
  | Some group1 =>
      match versionOfHeading (trim group1) with
      | Some _ => Some (trim group1)
      | None => None
      end
  | None => None
  end.

Fixpoint milestoneHeadings (lines : list string) : list string :=
  match lines with
  | [] => []
  | line :: rest =>
      match milestoneHeading line with
      | Some h => h :: milestoneHeadings rest
      | None => milestoneHeadings rest
      end
  end.

(** Carriage return followed by line feed. *)
Definition crlf : string := String (ascii_of_nat 13) lineFeed.

End Versions.

(** ** The hero image: [src/unnamed/part_000] *)

Module Theme.

(** [Theme]: ["light" | "dark"]. *)
Inductive Theme := Light | Dark.

(** What the component reads of [window]: the value stored under
    ["theme-preference"] ([null] when absent) and whether the media query
    [(prefers-color-scheme: dark)] matches. *)
Record Window := {
  storedValue : option string;
  prefersDark : bool
}.

Definition getStoredTheme (window : option Window) : option Theme :=
  match window with
  | None => None
  | Some w =>
      match storedValue w with
      | Some value =>
          if String.eqb value "light" then Some Light
          else if String.eqb value "dark" then Some Dark
          else None
      | None => None
      end
  end.

Definition getSystemPrefersDark (window : option Window) : bool :=
  match window with
  | None => false
  | Some w => prefersDark w
  end.

Record HeroImage := {
  src : string;
  width : Z;
  height : Z
}.

(** [ThemeHeroImage]: on the server ([window] undefined) the snapshots are
    [null] and [false]. *)
Definition effectiveTheme (window : option Window) : Theme :=
  match getStoredTheme window with
  | Some theme => theme
  | None => if getSystemPrefersDark window then Dark else Light
  end.

Definition ThemeHeroImage (window : option Window) : HeroImage :=
  let isLight :=
    match effectiveTheme window with
    | Light => true
    | Dark => false
    end in
  {| src := if isLight then "/assets/mira_app_light.png" else "/assets/mira_app.png";
     width := if isLight then 3808 else 7680;
     height := if isLight then 2078 else 4220 |}.

End Theme.

(** ** Sample inputs *)

Module Samples.
Import Downloads.

Definition mkAsset (n : string) (bytes : Z) : ReleaseAsset :=
  {| name := n; browser_download_url := ("https://example.test/" ++ n)%string; size := bytes |}.

Definition setupExe : ReleaseAsset := mkAsset "Mira-Setup-x64.exe" 100.
Definition installerMsi : ReleaseAsset := mkAsset "Mira-1.0.msi" 200.
Definition armDmg : ReleaseAsset := mkAsset "mira-mac-arm64.dmg" 300.
Definition darwinZip : ReleaseAsset := mkAsset "mira-darwin.zip" 50.
Definition plainDmg : ReleaseAsset := mkAsset "Mira.dmg" 400.
Definition notesTxt : ReleaseAsset := mkAsset "win-setup-notes.txt" 5.

Definition mkRelease (tag : string) (pre isDraft : bool) (files : list ReleaseAsset)
  : GitHubRelease :=
  {| id := 1; release_name := tag; tag_name := tag;
     html_url := "https://example.test/release"; published_at := "2026-01-01T00:00:00Z";
     prerelease := pre; draft := isDraft; assets := files |}.

Definition stableRelease : GitHubRelease :=
  mkRelease "v1.2.0" false false
    [setupExe; installerMsi; armDmg; darwinZip; plainDmg; notesTxt].

Definition betaRelease : GitHubRelease := mkRelease "v1.3.0-beta" true false [setupExe].

Definition draftRelease : GitHubRelease := mkRelease "v1.4.0" false true [].

Definition sampleRoadmap : string :=
  String.concat JS.lineFeed
    [ "# Roadmap"; "";
      "## v1.2.0"; "- [x] Tabs"; "- [X] Themes"; "";
      "## v1.3.0"; "- [x] Sync"; "- [ ] Split view"; "" ].

(** Two files that differ in their address only. *)
Definition mirrorA : ReleaseAsset :=
  {| name := "Mira-Setup.exe"; browser_download_url := "https://a.example.test/Mira-Setup.exe";
     size := 100 |}.
Definition mirrorB : ReleaseAsset :=
  {| name := "Mira-Setup.exe"; browser_download_url := "https://b.example.test/Mira-Setup.exe";
     size := 100 |}.

Definition plainRelease : GitHubRelease := mkRelease "v1.0.0" false false [plainDmg].

End Samples.

(** * Properties *)

(** ** Facts about the built-ins *)

Module JSFacts.
Import JS.

Lemma startsWith_spec (s t : string) :
  startsWith s t = true <-> exists r, s = (t ++ r)%string.
Proof.
  revert s; induction t as [|b t IH]; intros s; simpl.
  - split; [intros _; now exists s | reflexivity].
  - destruct s as [|a s]; simpl.
    + split; [discriminate | intros [r Hr]; discriminate].
    + rewrite andb_true_iff, Ascii.eqb_eq, IH. split.
      * intros [-> [r ->]]. now exists r.
      * intros [r Hr]. injection Hr as -> ->. split; [reflexivity | now exists r].
Qed.

Lemma endsWith_spec (s t : string) :
  endsWith s t = true <-> exists p, s = (p ++ t)%string.
Proof.
  induction s as [|a s IH]; cbn [endsWith].
  - rewrite orb_false_r, String.eqb_eq. split.
    + intros <-. now exists EmptyString.
    + intros [p Hp]. destruct p; simpl in Hp; [assumption | discriminate].
  - rewrite orb_true_iff, String.eqb_eq, IH. split.
    + intros [<- | [p ->]]; [now exists EmptyString | now exists (String a p)].
    + intros [p Hp]. destruct p as [|b p]; simpl in Hp.
      * now left.
      * injection Hp as -> ->. right. now exists p.
Qed.

Lemma includes_spec (s t : string) :
  includes s t = true <-> exists p r, s = (p ++ t ++ r)%string.
Proof.
  induction s as [|a s IH].
  - cbn [includes]. rewrite orb_false_r, startsWith_spec. split.
    + intros [r Hr]. now exists EmptyString, r.
    + intros [p [r Hr]]. destruct p; simpl in Hr; [now exists r | discriminate].
  - cbn [includes]. rewrite orb_true_iff, startsWith_spec, IH. split.
    + intros [[r Hr] | [p [r ->]]].
      * now exists EmptyString, r.
      * now exists (String a p), r.
    + intros [p [r Hr]]. destruct p as [|b p]; simpl in Hr.
      * left. now exists r.
      * injection Hr as -> ->. right. now exists p, r.
Qed.

Section SortFacts.
Context {A : Type} (compare : A -> A -> Z).

Lemma insertSorted_perm (x : A) (l : list A) :
  Permutation (x :: l) (insertSorted compare x l).
Proof.
  induction l as [|y l IH]; simpl.
  - apply Permutation_refl.
  - destruct (compare x y <=? 0).
    + apply Permutation_refl.
    + eapply perm_trans; [apply perm_swap | apply perm_skip, IH].
Qed.

Lemma sort_perm (l : list A) : Permutation l (sort compare l).
Proof.
  induction l as [|x l IH]; simpl.
  - apply perm_nil.
  - eapply perm_trans; [apply perm_skip, IH | apply insertSorted_perm].
Qed.

Lemma sort_In (l : list A) (x : A) : In x (sort compare l) <-> In x l.
Proof.
  split; apply Permutation_in; [apply Permutation_sym |]; apply sort_perm.
Qed.

Lemma sort_length (l : list A) : List.length (sort compare l) = List.length l.
Proof. symmetry. apply Permutation_length, sort_perm. Qed.

(** An element that no element of [l] precedes goes to the front. *)
Lemma insertSorted_front (x : A) (l : list A) :
  (forall y, In y l -> compare x y <= 0) -> insertSorted compare x l = x :: l.
Proof.
  destruct l as [|y l]; simpl; intros H; [reflexivity |].
  destruct (Z.leb_spec (compare x y) 0) as [_ | Hgt]; [reflexivity |].
  specialize (H y (or_introl eq_refl)). lia.
Qed.

(** An element passes over a prefix of elements that all precede it. *)
Lemma insertSorted_app (x : A) (l1 l2 : list A) :
  (forall y, In y l1 -> 0 < compare x y) ->
  insertSorted compare x (l1 ++ l2) = l1 ++ insertSorted compare x l2.
Proof.
  induction l1 as [|y l1 IH]; simpl; intros H; [reflexivity |].
  destruct (Z.leb_spec (compare x y) 0) as [Hle | _].
  - specialize (H y (or_introl eq_refl)). lia.
  - f_equal. apply IH. intros z Hz. apply H. now right.
Qed.

(** Stability: elements that pairwise compare equal (or in order) keep their
    relative order. *)
Lemma insertSorted_filter (p : A -> bool) (x : A) (l : list A) :
  (forall a b, p a = true -> p b = true -> compare a b <= 0) ->
  filter p (insertSorted compare x l) = filter p (x :: l).
Proof.
  intros Hp. induction l as [|y l IH]; [reflexivity |].
  cbn [insertSorted]. destruct (Z.leb_spec (compare x y) 0) as [_ | Hgt]; [reflexivity |].
  cbn [filter] in *. rewrite IH.
  destruct (p x) eqn:Hx, (p y) eqn:Hy; try reflexivity.
  specialize (Hp x y Hx Hy). lia.
Qed.

Lemma sort_stable (p : A -> bool) (l : list A) :
  (forall a b, p a = true -> p b = true -> compare a b <= 0) ->
  filter p (sort compare l) = filter p l.
Proof.
  intros Hp. induction l as [|x l IH]; [reflexivity |].
  cbn [sort fold_right]. rewrite insertSorted_filter by exact Hp.
  fold (sort compare l). cbn [filter]. now rewrite IH.
Qed.

(** For a consistent comparator the result is in ascending order. *)
Hypothesis compare_total : forall a b, 0 < compare a b -> compare b a <= 0.
Hypothesis compare_trans :
  forall a b c, compare a b <= 0 -> compare b c <= 0 -> compare a c <= 0.

Lemma insertSorted_sorted (x : A) (l : list A) :
  StronglySorted (fun a b => compare a b <= 0) l ->
  StronglySorted (fun a b => compare a b <= 0) (insertSorted compare x l).
Proof.
  induction 1 as [|y l Hl IH Hy]; simpl.
  - constructor; [constructor | constructor].
  - destruct (Z.leb_spec (compare x y) 0) as [Hle | Hgt].
    + constructor; [constructor; assumption |].
      constructor; [assumption |].
      rewrite Forall_forall in *. intros z Hz. eauto.
    + constructor; [assumption |].
      rewrite Forall_forall in *. intros z Hz.
      apply (Permutation_in _ (Permutation_sym (insertSorted_perm x l))) in Hz.
      destruct Hz as [<- | Hz]; auto.
Qed.

Lemma sort_sorted (l : list A) :
  StronglySorted (fun a b => compare a b <= 0) (sort compare l).
Proof.
  induction l as [|x l IH]; simpl; [constructor | now apply insertSorted_sorted].
Qed.

(** The first element of the result precedes every element of the array. *)
Lemma sort_head_least (l : list A) (x : A) :
  hd_error (sort compare l) = Some x ->
  In x l /\ forall y, In y l -> compare x y <= 0.
Proof.
  intros Hhd. pose proof (sort_sorted l) as Hs.
  destruct (sort compare l) as [|z s] eqn:E; [discriminate |].
  injection Hhd as ->. split.
  - apply sort_In. rewrite E. now left.
  - intros y Hy. apply sort_In in Hy. rewrite E in Hy.
    inversion Hs as [|? ? _ Hall]; subst. destruct Hy as [<- | Hy].
    + destruct (Z.leb_spec (compare x x) 0) as [Hle | Hgt]; [assumption |].
      now apply compare_total.
    + rewrite Forall_forall in Hall. now apply Hall.
Qed.

(** The first element that satisfies [p], when it strictly precedes every
    other element that satisfies [p], is what [find] returns on the sorted
    array. *)
Lemma find_split (p : A -> bool) (l : list A) (x : A) :
  find p l = Some x ->
  exists l1 l2, l = l1 ++ x :: l2 /\ p x = true /\ forall y, In y l1 -> p y = false.
Proof.
  induction l as [|a l IH]; [discriminate |]. cbn [find].
  destruct (p a) eqn:Hpa.
  - intros [= ->]. exists [], l. repeat split; [assumption | intros y []].
  - intros Hfind. destruct (IH Hfind) as [l1 [l2 [-> [Hpx Hl1]]]].
    exists (a :: l1), l2. repeat split; [assumption |].
    intros y [<- | Hy]; auto.
Qed.

Lemma StronglySorted_app_r (R : A -> A -> Prop) (l1 l2 : list A) :
  StronglySorted R (l1 ++ l2) -> StronglySorted R l2.
Proof.
  induction l1 as [|a l1 IH]; [trivial |].
  intros H. inversion H; subst. auto.
Qed.

Lemma sort_find_least (p : A -> bool) (l : list A) (m : A) :
  (forall a b, compare a b < 0 -> 0 < compare b a) ->
  In m l ->
  p m = true ->
  (forall y, In y l -> p y = true -> y = m \/ compare m y < 0) ->
  find p (sort compare l) = Some m.
Proof.
  intros Hanti Hin Hpm Hleast.
  destruct (find p (sort compare l)) as [x|] eqn:Hfind.
  - destruct (find_split p _ x Hfind) as [l1 [l2 [Hsplit [Hpx Hl1]]]].
    assert (Hxl : In x l).
    { apply sort_In. rewrite Hsplit. apply in_or_app. right. now left. }
    destruct (Hleast x Hxl Hpx) as [-> | Hlt]; [reflexivity |].
    assert (Hms : In m (sort compare l)) by now apply sort_In.
    rewrite Hsplit in Hms. apply in_app_or in Hms.
    destruct Hms as [Hm1 | [-> | Hm2]].
    + rewrite (Hl1 m Hm1) in Hpm. discriminate.
    + reflexivity.
    + pose proof (sort_sorted l) as Hsorted. rewrite Hsplit in Hsorted.
      apply StronglySorted_app_r in Hsorted. inversion Hsorted as [|? ? _ Hall]; subst.
      rewrite Forall_forall in Hall. specialize (Hall m Hm2).
      specialize (Hanti m x Hlt). lia.
  - pose proof (find_none p _ Hfind m) as Hnone.
    rewrite Hnone in Hpm; [discriminate | now apply sort_In].
Qed.

End SortFacts.

Lemma sort_nonempty {A : Type} (compare : A -> A -> Z) (l : list A) :
  l <> [] -> exists x, hd_error (sort compare l) = Some x.
Proof.
  intros Hl. pose proof (sort_length compare l) as Hlen.
  destruct (sort compare l) as [|x s]; [| now exists x].
  destruct l; [contradiction | discriminate].
Qed.

(** Positions in a sorted list are in order. *)
Lemma StronglySorted_nth_error {A : Type} (R : A -> A -> Prop) (l : list A) :
  StronglySorted R l ->
  forall i j a b, (i < j)%nat -> nth_error l i = Some a -> nth_error l j = Some b -> R a b.
Proof.
  induction 1 as [|x l Hl IH Hx]; intros i j a b Hij Hi Hj.
  - destruct i; discriminate.
  - destruct j as [|j]; [lia |]. simpl in Hj. destruct i as [|i]; simpl in Hi.
    + injection Hi as ->. rewrite Forall_forall in Hx. apply Hx.
      eapply nth_error_In; eassumption.
    + apply (IH i j); [lia | assumption | assumption].
Qed.

End JSFacts.

(** ** The Release Resolver *)

Module DownloadsFacts.
Import JS JSFacts Downloads.

(** The [reduce] of the comparator computes the weighted sum. *)
Lemma reduceFrom_weightedTermSum (lower : string) (total : nat) (terms : list string) :
  forall (idx : nat) (acc : Z),
    total = (idx + List.length terms)%nat ->
    reduceFrom
      (fun score term i =>
         if includes lower term then score + (Z.of_nat total - Z.of_nat i) * 10 else score)
      idx acc terms
    = acc + weightedTermSum terms lower.
Proof.
  induction terms as [|term rest IH]; intros idx acc Htotal; cbn [reduceFrom weightedTermSum].
  - lia.
  - rewrite IH by (cbn [List.length] in Htotal; lia).
    cbn [List.length] in *. destruct (includes lower term); lia.
Qed.

Lemma termsScore_weightedTermSum (preferredTerms : list string) (lower : string) :
  termsScore preferredTerms lower = weightedTermSum preferredTerms lower.
Proof.
  unfold termsScore, reduce.
  rewrite (reduceFrom_weightedTermSum lower (List.length preferredTerms)) by reflexivity.
  lia.
Qed.

(** [a] is ranked no later than [b]: it scores higher, or the same with at
    least the size of [b]. *)
Lemma compareAssets_le (preferredTerms : list string) (a b : ReleaseAsset) :
  compareAssets preferredTerms a b <= 0 <->
  assetScore preferredTerms b < assetScore preferredTerms a
  \/ (assetScore preferredTerms a = assetScore preferredTerms b /\ size b <= size a).
Proof.
  unfold compareAssets, assetScore. rewrite !termsScore_weightedTermSum.
  destruct (Z.eqb_spec (weightedTermSum preferredTerms (toLowerCase (name a)))
              (weightedTermSum preferredTerms (toLowerCase (name b)))); cbn [negb]; lia.
Qed.

Lemma compareAssets_total (preferredTerms : list string) (a b : ReleaseAsset) :
  0 < compareAssets preferredTerms a b -> compareAssets preferredTerms b a <= 0.
Proof.
  intros H. apply compareAssets_le.
  assert (Hn : ~ compareAssets preferredTerms a b <= 0) by lia.
  rewrite compareAssets_le in Hn. lia.
Qed.

Lemma compareAssets_trans (preferredTerms : list string) (a b c : ReleaseAsset) :
  compareAssets preferredTerms a b <= 0 ->
  compareAssets preferredTerms b c <= 0 ->
  compareAssets preferredTerms a c <= 0.
Proof. rewrite !compareAssets_le. lia. Qed.

Lemma chooseBestAsset_empty (preferredTerms : list string) :
  chooseBestAsset [] preferredTerms = None.
Proof. reflexivity. Qed.

Lemma chooseBestAsset_best (pool : list ReleaseAsset) (preferredTerms : list string) :
  pool <> [] ->
  exists best,
    chooseBestAsset pool preferredTerms = Some best
    /\ HighestScoring preferredTerms pool best.
Proof.
  intros Hne. unfold chooseBestAsset.
  destruct pool as [|a0 pool0] eqn:Epool; [contradiction |]. rewrite <- Epool in *.
  replace (Nat.eqb (List.length pool) 0) with false by (subst pool; reflexivity).
  destruct (sort_nonempty (compareAssets preferredTerms) pool Hne) as [best Hbest].
  exists best. split; [exact Hbest |].
  destruct (sort_head_least _ (compareAssets_total preferredTerms)
              (compareAssets_trans preferredTerms) pool best Hbest) as [Hin Hleast].
  split; [exact Hin |]. split.
  - intros a Ha. specialize (Hleast a Ha). rewrite compareAssets_le in Hleast. lia.
  - intros a Ha Heq. specialize (Hleast a Ha). rewrite compareAssets_le in Hleast. lia.
Qed.

Lemma chooseBestAsset_None (pool : list ReleaseAsset) (preferredTerms : list string) :
  chooseBestAsset pool preferredTerms = None <-> pool = [].
Proof.
  split.
  - intros Hnone. destruct pool as [|a pool]; [reflexivity |].
    destruct (chooseBestAsset_best (a :: pool) preferredTerms) as [best [Hbest _]];
      [discriminate | congruence].
  - intros ->. reflexivity.
Qed.

Lemma chooseBestAsset_In (pool : list ReleaseAsset) (preferredTerms : list string)
  (a : ReleaseAsset) :
  chooseBestAsset pool preferredTerms = Some a -> In a pool.
Proof.
  intros Ha. destruct pool as [|a0 pool0] eqn:Epool; [discriminate |]. rewrite <- Epool in *.
  destruct (chooseBestAsset_best pool preferredTerms) as [best [Hbest [Hin _]]];
    [subst pool; discriminate | congruence].
Qed.

(** The pool of the Windows installer slot: the downloadable assets of the
    release that are Windows assets and installer-style. *)
Lemma windowsInstallerAssets_In (release : GitHubRelease) (a : ReleaseAsset) :
  In a (windowsInstallerAssets release) <->
  In a (assets release)
  /\ isDownloadableAsset (name a) = true
  /\ isWindowsAsset (name a) = true
  /\ isInstallerAsset (name a) = true.
Proof.
  unfold windowsInstallerAssets, windowsAssets, downloadableAssets.
  rewrite !filter_In. tauto.
Qed.

(** C1. For a non-empty pool and any list of preferred terms,
    [chooseBestAsset] returns a candidate of the pool with the maximal score,
    and of the largest size among the candidates with that score; the score
    the code computes is, for each preferred term the lower-cased name
    contains, ten times the number of terms from that term on, so a term
    listed earlier weighs more; for the empty pool it returns [null].  In
    particular, when the release has a downloadable Windows installer-style
    asset, the asset of the [windowsInstaller] slot is not [null] and is the
    highest-scoring candidate of its pool, for the terms ["setup"], [".msi"],
    [".exe"]. *)
Theorem chooseBestAsset_highest_scoring :
  (forall preferredTerms, chooseBestAsset [] preferredTerms = None)
  /\ (forall pool preferredTerms,
        pool <> [] ->
        exists best,
          chooseBestAsset pool preferredTerms = Some best
          /\ HighestScoring preferredTerms pool best)
  /\ (forall preferredTerms lower,
        termsScore preferredTerms lower = weightedTermSum preferredTerms lower)
  /\ (forall term rest lower,
        includes lower term = true ->
        weightedTermSum (term :: rest) lower
        = Z.of_nat (List.length (term :: rest)) * 10 + weightedTermSum rest lower)
  /\ (forall release,
        (exists a, In a (assets release)
                   /\ isDownloadableAsset (name a) = true
                   /\ isWindowsAsset (name a) = true
                   /\ isInstallerAsset (name a) = true) ->
        exists best,
          asset (windowsInstaller (buildDownloadSlots release)) = Some best
          /\ HighestScoring ["setup"; ".msi"; ".exe"] (windowsInstallerAssets release) best).
Proof.
  split; [exact chooseBestAsset_empty |].
  split; [exact chooseBestAsset_best |].
  split; [exact termsScore_weightedTermSum |].
  split.
  - intros term rest lower Hin. cbn [weightedTermSum]. now rewrite Hin.
  - intros release [a Ha]. cbn [buildDownloadSlots windowsInstaller asset].
    apply chooseBestAsset_best. intros Hnil.
    apply windowsInstallerAssets_In in Ha. rewrite Hnil in Ha. exact Ha.
Qed.

Lemma chooseBestAsset_highest_scoring_witness :
  exists best,
    asset (windowsInstaller (buildDownloadSlots Samples.stableRelease)) = Some best
    /\ HighestScoring ["setup"; ".msi"; ".exe"]
         (windowsInstallerAssets Samples.stableRelease) best.
Proof.
  apply (proj2 (proj2 (proj2 (proj2 chooseBestAsset_highest_scoring)))).
  exists Samples.setupExe. vm_compute. auto.
Defined.

(** The downloadable filter comes first: a file that is not downloadable is
    no candidate, whatever its name says. *)
Example windowsInstaller_needs_downloadable :
  asset (windowsInstaller (buildDownloadSlots (Samples.mkRelease "v1" false false [Samples.notesTxt])))
  = None.
Proof. reflexivity. Qed.

Example windowsInstaller_sample :
  asset (windowsInstaller (buildDownloadSlots Samples.stableRelease)) = Some Samples.setupExe.
Proof. reflexivity. Qed.

(** The classification examples of the specification. *)
Example classify_setup_exe :
  isWindowsAsset "Mira-Setup-x64.exe" = true
  /\ isInstallerAsset "Mira-Setup-x64.exe" = true
  /\ isPortableAsset "Mira-Setup-x64.exe" = false.
Proof. repeat split; reflexivity. Qed.

Example classify_portable_zip :
  isMacAsset "mira-portable-arm64.zip" = false
  /\ getMacAssetArchitecture "mira-portable-arm64.zip" = Arm64
  /\ isPortableAsset "mira-portable-arm64.zip" = true.
Proof. repeat split; reflexivity. Qed.

(** *** The six slots *)

Ltac unfold_pools :=
  unfold macArm64InstallerPool, macArm64PortablePool, macX64InstallerPool,
    macX64PortablePool, macArm64InstallerAssets, macArm64PortableAssets,
    macX64InstallerAssets, macX64PortableAssets, macUnknownInstallerAssets,
    macUnknownPortableAssets, macArm64Assets, macX64Assets, macUnknownArchAssets.

Lemma poolOrFallback_nil (exact unknown : list ReleaseAsset) :
  exact = [] -> poolOrFallback exact unknown = unknown.
Proof. intros ->. reflexivity. Qed.

Lemma poolOrFallback_exact (exact unknown : list ReleaseAsset) :
  exact <> [] -> poolOrFallback exact unknown = exact.
Proof. destruct exact; [contradiction | reflexivity]. Qed.

(** C3. For every release [buildDownloadSlots] yields six slots, with the
    labels and platform tags below in this order; it is a total function, so
    building the slots cannot fail; the asset of a slot is [null] exactly when
    its candidate pool is empty; for a release without assets the six assets
    are [null]. *)
Theorem buildDownloadSlots_six_slots (release : GitHubRelease) :
  List.length (slotList (buildDownloadSlots release)) = 6%nat
  /\ map (fun slot => (label slot, platform slot)) (slotList (buildDownloadSlots release))
     = [ ("Windows Installer", Windows);
         ("Windows Portable", Windows);
         ("macOS (Apple Silicon) Installer", MacArm64);
         ("macOS (Apple Silicon) Portable", MacArm64);
         ("macOS (Intel) Installer", MacX64);
         ("macOS (Intel) Portable", MacX64) ]
  /\ Forall2 (fun slot pool => asset slot = None <-> pool = [])
       (slotList (buildDownloadSlots release)) (slotPools release)
  /\ (assets release = [] ->
      Forall (fun slot => asset slot = None) (slotList (buildDownloadSlots release))).
Proof.
  split; [reflexivity |]. split; [reflexivity |]. split.
  - unfold slotList, slotPools, buildDownloadSlots; cbn [windowsInstaller windowsPortable
      macArm64Installer macArm64Portable macX64Installer macX64Portable asset].
    repeat constructor; apply chooseBestAsset_None.
  - intros Hnone.
    assert (Hdl : downloadableAssets release = []) by (unfold downloadableAssets; now rewrite Hnone).
    unfold slotList, buildDownloadSlots; cbn [windowsInstaller windowsPortable
      macArm64Installer macArm64Portable macX64Installer macX64Portable asset].
    repeat constructor; apply chooseBestAsset_None; unfold_pools;
      unfold windowsInstallerAssets, windowsPortableAssets, windowsAssets, macAssets;
      rewrite Hdl; reflexivity.
Qed.

Lemma buildDownloadSlots_six_slots_witness :
  Forall (fun slot => asset slot = None)
    (slotList (buildDownloadSlots Samples.draftRelease)).
Proof.
  apply (proj2 (proj2 (proj2 (buildDownloadSlots_six_slots Samples.draftRelease)))).
  reflexivity.
Defined.

(** *** The pools of the mac slots *)

Lemma filter_filter_andb {A : Type} (p q : A -> bool) (l : list A) :
  filter q (filter p l) = filter (fun x => (p x && q x)%bool) l.
Proof.
  induction l as [|x l IH]; [reflexivity |].
  cbn [filter]. destruct (p x); cbn [filter andb]; [destruct (q x) |]; now rewrite IH.
Qed.

Lemma MacArch_eqb_eq (a b : MacArch) : MacArch_eqb a b = true <-> a = b.
Proof. destruct a, b; simpl; split; congruence. Qed.

Lemma macCandidates_In (release : GitHubRelease) (arch : MacArch) (style : string -> bool)
  (a : ReleaseAsset) :
  In a (macCandidates release arch style) <->
  In a (assets release) /\ IsMacCandidate arch style a.
Proof.
  unfold macCandidates, IsMacCandidate.
  rewrite filter_In, !andb_true_iff, MacArch_eqb_eq. tauto.
Qed.

(** The nested filters of [buildDownloadSlots] select the mac candidates. *)
Lemma nested_filters_macCandidates (release : GitHubRelease) (arch : MacArch)
  (style : string -> bool) :
  filter (fun asset => style (name asset))
    (filter (fun asset => MacArch_eqb (getMacAssetArchitecture (name asset)) arch)
       (macAssets release))
  = macCandidates release arch style.
Proof.
  unfold macAssets, downloadableAssets, macCandidates.
  rewrite !filter_filter_andb. apply filter_ext. intros a.
  now rewrite <- !andb_assoc.
Qed.

Lemma poolOrFallback_rule (release : GitHubRelease) (arch : MacArch) (style : string -> bool) :
  PoolWithFallback release arch style
    (poolOrFallback (macCandidates release arch style)
       (macCandidates release UnknownArch style)).
Proof.
  split.
  - intros [a Ha]. apply macCandidates_In in Ha.
    rewrite poolOrFallback_exact by (intros Hnil; now rewrite Hnil in Ha).
    split; [reflexivity | intros b; apply macCandidates_In].
  - intros Hnone.
    rewrite poolOrFallback_nil.
    + split; [reflexivity | intros b; apply macCandidates_In].
    + destruct (macCandidates release arch style) as [|a l] eqn:E; [reflexivity |].
      exfalso. apply Hnone. exists a. apply macCandidates_In. rewrite E. now left.
Qed.

(** C6. For each mac architecture (arm64, x64) and each style (installer,
    portable): when the release has a downloadable mac asset of that
    architecture and style, the candidate pool of the slot is exactly the
    assets of that kind, in release order; otherwise it is the downloadable
    mac assets of unknown architecture and the same style.  The asset of each
    mac slot is chosen from that pool. *)
Theorem mac_pool_fallback (release : GitHubRelease) :
  PoolWithFallback release Arm64 isInstallerAsset (macArm64InstallerPool release)
  /\ PoolWithFallback release Arm64 isPortableAsset (macArm64PortablePool release)
  /\ PoolWithFallback release X64 isInstallerAsset (macX64InstallerPool release)
  /\ PoolWithFallback release X64 isPortableAsset (macX64PortablePool release)
  /\ asset (macArm64Installer (buildDownloadSlots release))
     = chooseBestAsset (macArm64InstallerPool release) ["dmg"; "pkg"]
  /\ asset (macArm64Portable (buildDownloadSlots release))
     = chooseBestAsset (macArm64PortablePool release) ["portable"; ".zip"; ".tar.gz"]
  /\ asset (macX64Installer (buildDownloadSlots release))
     = chooseBestAsset (macX64InstallerPool release) ["dmg"; "pkg"]
  /\ asset (macX64Portable (buildDownloadSlots release))
     = chooseBestAsset (macX64PortablePool release) ["portable"; ".zip"; ".tar.gz"].
Proof.
  repeat match goal with |- _ /\ _ => split end; try reflexivity;
    unfold_pools; rewrite !nested_filters_macCandidates; apply poolOrFallback_rule.
Qed.

Lemma mac_pool_fallback_witness :
  macArm64InstallerPool Samples.stableRelease = [Samples.armDmg]
  /\ macX64InstallerPool Samples.stableRelease = [Samples.plainDmg].
Proof.
  destruct (mac_pool_fallback Samples.stableRelease) as [Harm [_ [Hx64 _]]].
  split.
  - destruct Harm as [Hexact _]. destruct Hexact as [Hpool _].
    + exists Samples.armDmg. vm_compute. auto 10.
    + rewrite Hpool. reflexivity.
  - destruct Hx64 as [_ Hfallback]. destruct Hfallback as [Hpool _].
    + intros [a [Hin [_ [Hmac [Harch Hstyle]]]]].
      vm_compute in Hin.
      repeat (destruct Hin as [<- | Hin];
              [vm_compute in Hmac, Harch, Hstyle;
               first [discriminate Hmac | discriminate Harch | discriminate Hstyle] |]).
      exact Hin.
    + rewrite Hpool. reflexivity.
Defined.

(** *** Chosen assets come from the release and are downloadable *)

Lemma slotPools_downloadable (release : GitHubRelease) (pool : list ReleaseAsset)
  (a : ReleaseAsset) :
  In pool (slotPools release) -> In a pool -> In a (downloadableAssets release).
Proof.
  unfold slotPools. unfold_pools.
  unfold poolOrFallback, windowsInstallerAssets, windowsPortableAssets, windowsAssets,
    macAssets.
  intros Hpool Ha.
  repeat (destruct Hpool as [<- | Hpool];
          [repeat match type of Ha with
             | In _ (if ?c then _ else _) => destruct c
             | In _ (filter _ _) => apply filter_In in Ha; destruct Ha as [Ha _]
             end; exact Ha |]).
  contradiction.
Qed.

Lemma slot_asset_from_pool (release : GitHubRelease) (slot : DownloadSlot) (a : ReleaseAsset) :
  In slot (slotList (buildDownloadSlots release)) ->
  asset slot = Some a ->
  exists pool, In pool (slotPools release) /\ In a pool.
Proof.
  unfold slotList, slotPools, buildDownloadSlots; cbn [windowsInstaller windowsPortable
    macArm64Installer macArm64Portable macX64Installer macX64Portable].
  intros Hslot Ha.
  repeat (destruct Hslot as [<- | Hslot];
          [cbn [asset] in Ha; apply chooseBestAsset_In in Ha;
           eexists; split; [| exact Ha]; cbn [In]; tauto |]).
  contradiction.
Qed.

Lemma isDownloadableAsset_extension (n : string) :
  isDownloadableAsset n = true <->
  exists ext stem, In ext downloadableExtensions /\ toLowerCase n = (stem ++ ext)%string.
Proof.
  unfold isDownloadableAsset. rewrite existsb_exists. split.
  - intros [ext [Hin Hends]]. apply endsWith_spec in Hends. destruct Hends as [stem Hstem].
    now exists ext, stem.
  - intros [ext [stem [Hin Hstem]]]. exists ext. split; [exact Hin |].
    apply endsWith_spec. now exists stem.
Qed.

(** C10. In every release, an asset held by a slot is one of the assets of
    that release, and its lower-cased name ends in one of the downloadable
    extensions [.exe], [.msi], [.dmg], [.pkg], [.zip], [.tar.gz]. *)
Theorem slot_asset_from_release_and_downloadable
  (release : GitHubRelease) (slot : DownloadSlot) (a : ReleaseAsset) :
  In slot (slotList (buildDownloadSlots release)) ->
  asset slot = Some a ->
  In a (assets release)
  /\ isDownloadableAsset (name a) = true
  /\ exists ext stem,
       In ext [".exe"; ".msi"; ".dmg"; ".pkg"; ".zip"; ".tar.gz"]
       /\ toLowerCase (name a) = (stem ++ ext)%string.
Proof.
  intros Hslot Ha.
  destruct (slot_asset_from_pool release slot a Hslot Ha) as [pool [Hpool Hin]].
  pose proof (slotPools_downloadable release pool a Hpool Hin) as Hdl.
  unfold downloadableAssets in Hdl. apply filter_In in Hdl. destruct Hdl as [Hrel Hdl].
  split; [exact Hrel |]. split; [exact Hdl |].
  now apply isDownloadableAsset_extension.
Qed.

Lemma slot_asset_from_release_and_downloadable_witness :
  In Samples.armDmg (assets Samples.stableRelease)
  /\ isDownloadableAsset (name Samples.armDmg) = true
  /\ exists ext stem,
       In ext [".exe"; ".msi"; ".dmg"; ".pkg"; ".zip"; ".tar.gz"]
       /\ toLowerCase (name Samples.armDmg) = (stem ++ ext)%string.
Proof.
  apply (slot_asset_from_release_and_downloadable Samples.stableRelease
           (macArm64Installer (buildDownloadSlots Samples.stableRelease))).
  - cbn [slotList In]. tauto.
  - reflexivity.
Defined.

(** *** Fetching and selecting the release *)

(** C2. The effective include-prereleases decision holds exactly when the
    caller asked for pre-releases or no stable release exists; the selected
    release is the first of all (non-draft) releases when pre-releases are
    included, and the first of the stable ones (those with [prerelease]
    false) otherwise.  So a request without pre-releases on a feed without a
    stable release includes them anyway and selects the first release of the
    feed, and an empty list selects no release.  The page applies this
    decision to the list [fetchReleases] returns, which holds no draft. *)
Theorem selectRelease_decision (requested : bool) (allReleases : list GitHubRelease) :
  (effectiveIncludePrereleases (selectRelease requested allReleases) = true <->
   requested = true \/ stableReleases allReleases = [])
  /\ (effectiveIncludePrereleases (selectRelease requested allReleases) = true ->
      selectedRelease (selectRelease requested allReleases) = hd_error allReleases)
  /\ (effectiveIncludePrereleases (selectRelease requested allReleases) = false ->
      selectedRelease (selectRelease requested allReleases)
      = hd_error (stableReleases allReleases))
  /\ (requested = false ->
      stableReleases allReleases = [] ->
      effectiveIncludePrereleases (selectRelease requested allReleases) = true
      /\ selectedRelease (selectRelease requested allReleases) = hd_error allReleases)
  /\ (allReleases = [] -> selectedRelease (selectRelease requested allReleases) = None)
  /\ (forall release,
        In release (stableReleases allReleases) <->
        In release allReleases /\ prerelease release = false)
  /\ (forall includePrereleases response fetched,
        fetchReleases response = Returned fetched ->
        Forall (fun release => draft release = false) fetched
        /\ DownloadsPage includePrereleases response
           = Returned (render (selectRelease (parseIncludePrereleases includePrereleases)
                                 fetched))).
Proof.
  unfold selectRelease at 1 2 3 4 5 6 7 8; cbn [effectiveIncludePrereleases selectedRelease].
  assert (Hstable : Nat.ltb 0 (List.length (stableReleases allReleases)) = false <->
                    stableReleases allReleases = []).
  { destruct (stableReleases allReleases); split; intros H; (reflexivity || discriminate H). }
  repeat match goal with |- _ /\ _ => split end.
  - rewrite orb_true_iff, negb_true_iff, Hstable. tauto.
  - intros ->. reflexivity.
  - intros ->. reflexivity.
  - intros -> Hnone. apply Hstable in Hnone. rewrite Hnone. split; reflexivity.
  - intros ->. now destruct requested.
  - intros release. unfold stableReleases. rewrite filter_In, negb_true_iff. tauto.
  - intros param response fetched Hfetch. unfold DownloadsPage. rewrite Hfetch.
    split; [| reflexivity]. unfold fetchReleases in Hfetch.
    destruct (ok response); cbn [negb] in Hfetch.
    + destruct (json response) as [data|]; [| discriminate Hfetch].
      injection Hfetch as <-. apply Forall_forall. intros release Hin.
      apply filter_In in Hin. now apply negb_true_iff.
    + injection Hfetch as <-. constructor.
Qed.

Lemma selectRelease_decision_witness :
  effectiveIncludePrereleases (selectRelease false [Samples.betaRelease]) = true
  /\ selectedRelease (selectRelease false [Samples.betaRelease]) = Some Samples.betaRelease.
Proof.
  apply (proj1 (proj2 (proj2 (proj2 (selectRelease_decision false [Samples.betaRelease])))));
    reflexivity.
Defined.

(** C7. When the response is not [ok], [fetchReleases] returns the empty
    list (it does not throw, whatever the body is); from an [ok] response it
    returns the releases of the body that are not drafts, in feed order; and
    with an empty release list the page selects no release and shows the
    notice that no release is available, without cards.  So for a response
    that is not [ok] the page renders that empty state. *)
Theorem fetchReleases_degrades_to_empty :
  (forall response, ok response = false -> fetchReleases response = Returned [])
  /\ (forall response data,
        ok response = true ->
        json response = Some data ->
        exists releases,
          fetchReleases response = Returned releases
          /\ releases = filter (fun release => negb (draft release)) data
          /\ forall release, In release releases <-> In release data /\ draft release = false)
  /\ (forall requested,
        selectedRelease (selectRelease requested []) = None
        /\ slots (selectRelease requested []) = None
        /\ noReleaseNotice (render (selectRelease requested [])) = true
        /\ cards (render (selectRelease requested [])) = None)
  /\ (forall includePrereleases response,
        ok response = false ->
        DownloadsPage includePrereleases response
        = Returned {| toggleChecked := true;
                      toggleDisabled := true;
                      autoPrereleaseNote := true;
                      noReleaseNotice := true;
                      releaseShown := None;
                      cards := None |}).
Proof.
  repeat match goal with |- _ /\ _ => split end.
  - intros response Hok. unfold fetchReleases. now rewrite Hok.
  - intros response data Hok Hjson. unfold fetchReleases. rewrite Hok, Hjson. cbn [negb].
    eexists. split; [reflexivity |]. split; [reflexivity |].
    intros release. rewrite filter_In, negb_true_iff. tauto.
  - intros requested. now destruct requested.
  - intros param response Hok. unfold DownloadsPage, fetchReleases. rewrite Hok. cbn [negb].
    now destruct (parseIncludePrereleases param).
Qed.

Lemma fetchReleases_degrades_to_empty_witness :
  fetchReleases {| ok := false; json := None |} = Returned [].
Proof.
  apply (proj1 fetchReleases_degrades_to_empty). reflexivity.
Defined.

End DownloadsFacts.

(** ** The Client Platform Matcher *)

Module CardsFacts.
Import JS JSFacts Downloads Cards.

Lemma getRelevanceScore_relevanceTable (slot : DownloadSlot) (os : DetectedOS) :
  getRelevanceScore slot os = relevanceTable os (platform slot).
Proof.
  destruct slot as [l p a]. destruct os, p; reflexivity.
Qed.

(** Sorting on a score that is the same for every slot changes nothing. *)
Lemma orderedSlots_constant_score (slots : list DownloadSlot) (os : DetectedOS) :
  (forall slot, getRelevanceScore slot os = 0) -> orderedSlots slots os = slots.
Proof.
  intros Hzero. unfold orderedSlots. induction slots as [|slot slots IH]; [reflexivity |].
  cbn [sort fold_right].
  fold (sort (fun a b => getRelevanceScore a os - getRelevanceScore b os) slots).
  rewrite IH. apply insertSorted_front. intros y _. rewrite !Hzero. lia.
Qed.

(** C4. The relevance score of a slot is the entry of the table of the
    specification: detected windows gives 0 to windows slots and 2 to the mac
    slots; mac-arm64 gives 0 to mac-arm64, 1 to mac-x64, 2 to windows; mac-x64
    gives 0 to mac-x64, 1 to mac-arm64, 2 to windows; generic mac gives 2 to
    windows and 0 to the mac slots; other and unknown give 0 to every slot,
    and the slots then keep their order. *)
Theorem relevance_score_table :
  (forall slot os, getRelevanceScore slot os = relevanceTable os (platform slot))
  /\ (forall slot,
        (platform slot = Windows ->
         getRelevanceScore slot OsWindows = 0
         /\ getRelevanceScore slot OsMacArm64 = 2
         /\ getRelevanceScore slot OsMacX64 = 2
         /\ getRelevanceScore slot OsMac = 2)
        /\ (platform slot = MacArm64 ->
            getRelevanceScore slot OsWindows = 2
            /\ getRelevanceScore slot OsMacArm64 = 0
            /\ getRelevanceScore slot OsMacX64 = 1
            /\ getRelevanceScore slot OsMac = 0)
        /\ (platform slot = MacX64 ->
            getRelevanceScore slot OsWindows = 2
            /\ getRelevanceScore slot OsMacArm64 = 1
            /\ getRelevanceScore slot OsMacX64 = 0
            /\ getRelevanceScore slot OsMac = 0)
        /\ getRelevanceScore slot OsOther = 0
        /\ getRelevanceScore slot OsUnknown = 0)
  /\ (forall slots,
        orderedSlots slots OsOther = slots /\ orderedSlots slots OsUnknown = slots).
Proof.
  split; [exact getRelevanceScore_relevanceTable |]. split.
  - intros slot. rewrite !getRelevanceScore_relevanceTable.
    destruct (platform slot);
      repeat match goal with |- _ /\ _ => split end;
      try reflexivity; intros H; try discriminate H; repeat split.
  - intros slots. split; apply orderedSlots_constant_score; reflexivity.
Qed.

Lemma relevance_score_table_witness :
  getRelevanceScore (macX64Installer (buildDownloadSlots Samples.stableRelease)) OsWindows = 2
  /\ getRelevanceScore (macX64Installer (buildDownloadSlots Samples.stableRelease)) OsMacArm64 = 1
  /\ getRelevanceScore (macX64Installer (buildDownloadSlots Samples.stableRelease)) OsMacX64 = 0
  /\ getRelevanceScore (macX64Installer (buildDownloadSlots Samples.stableRelease)) OsMac = 0.
Proof.
  apply (proj2 relevance_score_table). reflexivity.
Defined.

Lemma hasPlatform_true (p : Platform) (slot : DownloadSlot) :
  hasPlatform p slot = true <-> platform slot = p.
Proof.
  unfold hasPlatform. destruct (platform slot), p; simpl; split; congruence.
Qed.

Lemma hasPlatform_cases (slot : DownloadSlot) :
  (platform slot = Windows
   /\ hasPlatform MacArm64 slot = false
   /\ hasPlatform MacX64 slot = false
   /\ hasPlatform Windows slot = true)
  \/ (platform slot = MacArm64
      /\ hasPlatform MacArm64 slot = true
      /\ hasPlatform MacX64 slot = false
      /\ hasPlatform Windows slot = false)
  \/ (platform slot = MacX64
      /\ hasPlatform MacArm64 slot = false
      /\ hasPlatform MacX64 slot = true
      /\ hasPlatform Windows slot = false).
Proof.
  unfold hasPlatform. destruct (platform slot); simpl; tauto.
Qed.

Lemma filter_hasPlatform_In (p : Platform) (slots : list DownloadSlot) (slot : DownloadSlot) :
  In slot (filter (hasPlatform p) slots) -> platform slot = p.
Proof. intros H. apply filter_In in H. now apply hasPlatform_true. Qed.

Lemma orderedSlots_sorted (slots : list DownloadSlot) (os : DetectedOS) :
  StronglySorted (fun a b => getRelevanceScore a os <= getRelevanceScore b os)
    (orderedSlots slots os).
Proof.
  unfold orderedSlots.
  pose proof (sort_sorted (fun a b => getRelevanceScore a os - getRelevanceScore b os)
                ltac:(intros; lia) ltac:(intros; lia) slots) as Hsorted.
  induction Hsorted as [|a l _ IH Hall]; constructor; [exact IH |].
  eapply Forall_impl; [| exact Hall]. intros b Hb. cbn beta in Hb. lia.
Qed.

(** With mac-arm64 detected, the result is the mac-arm64 slots, then the
    mac-x64 slots, then the windows slots, each group in its original order. *)
Lemma orderedSlots_macArm64_groups (slots : list DownloadSlot) :
  orderedSlots slots OsMacArm64
  = filter (hasPlatform MacArm64) slots
    ++ filter (hasPlatform MacX64) slots
    ++ filter (hasPlatform Windows) slots.
Proof.
  unfold orderedSlots. induction slots as [|slot slots IH]; [reflexivity |].
  cbn [sort fold_right]. fold (sort (fun a b => getRelevanceScore a OsMacArm64
                                               - getRelevanceScore b OsMacArm64) slots).
  rewrite IH. cbn [filter].
  destruct (hasPlatform_cases slot) as [[Hp [-> [-> ->]]] | [[Hp [-> [-> ->]]] | [Hp [-> [-> ->]]]]].
  - rewrite app_assoc, insertSorted_app, insertSorted_front, <- app_assoc; [reflexivity | |].
    + intros y Hy. apply filter_hasPlatform_In in Hy.
      rewrite !getRelevanceScore_relevanceTable, Hp, Hy. simpl. lia.
    + intros y Hy. apply in_app_or in Hy.
      destruct Hy as [Hy | Hy]; apply filter_hasPlatform_In in Hy;
        rewrite !getRelevanceScore_relevanceTable, Hp, Hy; simpl; lia.
  - rewrite insertSorted_front; [reflexivity |].
    intros y _. rewrite !getRelevanceScore_relevanceTable, Hp.
    destruct (platform y); simpl; lia.
  - rewrite insertSorted_app, insertSorted_front; [reflexivity | |].
    + intros y Hy. apply in_app_or in Hy.
      destruct Hy as [Hy | Hy]; apply filter_hasPlatform_In in Hy;
        rewrite !getRelevanceScore_relevanceTable, Hp, Hy; simpl; lia.
    + intros y Hy. apply filter_hasPlatform_In in Hy.
      rewrite !getRelevanceScore_relevanceTable, Hp, Hy. simpl. lia.
Qed.

(** C5. The displayed order is a permutation of the slots it is given; the
    sort is stable: for every detected platform, the slots of one score keep
    their relative order; with mac-arm64 detected the result is the mac-arm64
    slots, then the mac-x64 slots, then the windows slots, each group in its
    original order, so that every mac-arm64 slot stands before every mac-x64
    slot and every mac-x64 slot before every windows slot. *)
Theorem orderedSlots_stable_permutation :
  (forall slots os, Permutation slots (orderedSlots slots os))
  /\ (forall slots os score,
        filter (fun slot => getRelevanceScore slot os =? score) (orderedSlots slots os)
        = filter (fun slot => getRelevanceScore slot os =? score) slots)
  /\ (forall slots,
        orderedSlots slots OsMacArm64
        = filter (hasPlatform MacArm64) slots
          ++ filter (hasPlatform MacX64) slots
          ++ filter (hasPlatform Windows) slots)
  /\ (forall slots i j a b,
        nth_error (orderedSlots slots OsMacArm64) i = Some a ->
        nth_error (orderedSlots slots OsMacArm64) j = Some b ->
        (platform a = MacArm64 /\ platform b = MacX64)
        \/ (platform a = MacX64 /\ platform b = Windows)
        \/ (platform a = MacArm64 /\ platform b = Windows) ->
        (i < j)%nat).
Proof.
  repeat match goal with |- _ /\ _ => split end.
  - intros slots os. apply sort_perm.
  - intros slots os score. apply sort_stable.
    intros a b Ha Hb. apply Z.eqb_eq in Ha, Hb. lia.
  - exact orderedSlots_macArm64_groups.
  - intros slots i j a b Hi Hj Hplat.
    assert (Hlt : getRelevanceScore a OsMacArm64 < getRelevanceScore b OsMacArm64).
    { rewrite !getRelevanceScore_relevanceTable.
      destruct Hplat as [[-> ->] | [[-> ->] | [-> ->]]]; simpl; lia. }
    destruct (Nat.lt_trichotomy i j) as [Hij | [Hij | Hij]]; [exact Hij | |].
    + subst j. rewrite Hi in Hj. injection Hj as ->. lia.
    + pose proof (StronglySorted_nth_error _ _ (orderedSlots_sorted slots OsMacArm64)
                    j i b a Hij Hj Hi) as Hle.
      cbn beta in Hle. lia.
Qed.

Lemma orderedSlots_stable_permutation_witness :
  nth_error (orderedSlots (slotList (buildDownloadSlots Samples.stableRelease)) OsMacArm64) 1
  = Some (macArm64Portable (buildDownloadSlots Samples.stableRelease))
  /\ nth_error (orderedSlots (slotList (buildDownloadSlots Samples.stableRelease)) OsMacArm64) 4
     = Some (windowsInstaller (buildDownloadSlots Samples.stableRelease))
  /\ (1 < 4)%nat.
Proof.
  split; [reflexivity |]. split; [reflexivity |].
  apply (proj2 (proj2 (proj2 orderedSlots_stable_permutation))
           (slotList (buildDownloadSlots Samples.stableRelease)) 1%nat 4%nat
           (macArm64Portable (buildDownloadSlots Samples.stableRelease))
           (windowsInstaller (buildDownloadSlots Samples.stableRelease)));
    [reflexivity | reflexivity | right; right; split; reflexivity].
Defined.

Lemma mapWithIndex_flags (os : DetectedOS) (slots : list DownloadSlot) :
  forall idx,
    map (fun card => (cardSlot card, cardApplicable card))
      (mapWithIndex
         (fun slot i =>
            {| cardSlot := slot; cardApplicable := isApplicable slot os; cardIndex := i |})
         idx slots)
    = map (fun slot => (slot, isApplicable slot os)) slots.
Proof.
  induction slots as [|slot slots IH]; intros idx; [reflexivity |].
  cbn [mapWithIndex map cardSlot cardApplicable]. now rewrite IH.
Qed.

(** C8. A slot is applicable exactly when detection is unknown or other, or
    the detected platform is generic mac and the slot is a mac-arm64 or a
    mac-x64 slot, or the platform tag of the slot is the detected platform;
    the flag of a card depends on the platform of its slot and on the detected
    platform only, not on its position: the displayed cards carry the flags
    the slots have before they are ordered. *)
Theorem isApplicable_rule :
  (forall slot os,
     isApplicable slot os = true <->
     os = OsUnknown
     \/ os = OsOther
     \/ (os = OsMac /\ (platform slot = MacArm64 \/ platform slot = MacX64))
     \/ platformTag (platform slot) = osTag os)
  /\ (forall slots os card,
        In card (DownloadCards slots os) ->
        cardApplicable card = isApplicable (cardSlot card) os)
  /\ (forall slot slot' os,
        platform slot = platform slot' -> isApplicable slot os = isApplicable slot' os)
  /\ (forall slots os,
        Permutation
          (map (fun card => (cardSlot card, cardApplicable card)) (DownloadCards slots os))
          (map (fun slot => (slot, isApplicable slot os)) slots)).
Proof.
  repeat match goal with |- _ /\ _ => split end.
  - intros slot os. unfold isApplicable.
    destruct os, (platform slot); simpl; split; intros H;
      try reflexivity; try discriminate H;
      try (now auto 6); intuition discriminate.
  - intros slots os card Hin.
    assert (Hpair : In (cardSlot card, cardApplicable card)
                      (map (fun c => (cardSlot c, cardApplicable c)) (DownloadCards slots os)))
      by (apply in_map_iff; now exists card).
    unfold DownloadCards in Hpair. rewrite mapWithIndex_flags in Hpair.
    apply in_map_iff in Hpair. destruct Hpair as [slot [Heq _]].
    injection Heq as Hslot Hflag. now rewrite <- Hflag, Hslot.
  - intros slot slot' os Hp. unfold isApplicable. now rewrite Hp.
  - intros slots os. unfold DownloadCards. rewrite mapWithIndex_flags.
    apply Permutation_map, Permutation_sym, sort_perm.
Qed.

Lemma isApplicable_rule_witness :
  isApplicable (macX64Installer (buildDownloadSlots Samples.stableRelease)) OsMac = true.
Proof.
  apply (proj1 isApplicable_rule). right. right. left. split; [reflexivity |].
  right. reflexivity.
Defined.

End CardsFacts.

(** ** The upcoming release plan *)

Module AboutFacts.
Import JS JSFacts About.

Lemma compareSemver_total (a b : ParsedSemver) :
  0 < compareSemver a b -> compareSemver b a <= 0.
Proof.
  unfold compareSemver.
  destruct (Z.eqb_spec (major a) (major b)), (Z.eqb_spec (minor a) (minor b)),
    (Z.eqb_spec (major b) (major a)), (Z.eqb_spec (minor b) (minor a)); cbn [negb]; lia.
Qed.

Lemma compareSemver_anti (a b : ParsedSemver) :
  compareSemver a b < 0 -> 0 < compareSemver b a.
Proof.
  unfold compareSemver.
  destruct (Z.eqb_spec (major a) (major b)), (Z.eqb_spec (minor a) (minor b)),
    (Z.eqb_spec (major b) (major a)), (Z.eqb_spec (minor b) (minor a)); cbn [negb]; lia.
Qed.

Lemma compareSemver_trans (a b c : ParsedSemver) :
  compareSemver a b <= 0 -> compareSemver b c <= 0 -> compareSemver a c <= 0.
Proof.
  unfold compareSemver.
  destruct (Z.eqb_spec (major a) (major b)), (Z.eqb_spec (minor a) (minor b)),
    (Z.eqb_spec (major b) (major c)), (Z.eqb_spec (minor b) (minor c)),
    (Z.eqb_spec (major a) (major c)), (Z.eqb_spec (minor a) (minor c)); cbn [negb]; lia.
Qed.

(** *** Every parsed milestone carries the version its heading shows *)

Lemma updateLast_Forall {A : Type} (P : A -> Prop) (f : A -> A) (l : list A) :
  (forall x, P x -> P (f x)) -> Forall P l -> Forall P (updateLast f l).
Proof.
  intros Hf. induction 1 as [|x l Hx Hl IH]; [constructor |].
  cbn [updateLast]. destruct l as [|y l]; constructor; auto.
Qed.

Lemma parseLine_versioned (st : ParseState) (line : string) :
  Forall (fun m => versionOfHeading (heading m) = Some (version m)) (milestones st) ->
  Forall (fun m => versionOfHeading (heading m) = Some (version m))
    (milestones (parseLine st line)).
Proof.
  intros Hst. unfold parseLine.
  destruct (headingMatch line) as [group1|].
  - destruct (versionOfHeading (trim group1)) as [v|] eqn:Hv; cbn [milestones]; [| exact Hst].
    apply Forall_app. split; [exact Hst |]. constructor; [exact Hv | constructor].
  - destruct (taskMatch line) as [[mark rest]|]; [| exact Hst].
    destruct (currentIsLast st); [| exact Hst]. cbn [milestones].
    apply updateLast_Forall; [| exact Hst]. intros m Hm. exact Hm.
Qed.

Lemma parseRoadmapMarkdown_versioned (markdown : string) :
  Forall (fun m => versionOfHeading (heading m) = Some (version m))
    (parseRoadmapMarkdown markdown).
Proof.
  unfold parseRoadmapMarkdown.
  assert (Hfold : forall lines st,
             Forall (fun m => versionOfHeading (heading m) = Some (version m)) (milestones st) ->
             Forall (fun m => versionOfHeading (heading m) = Some (version m))
               (milestones (fold_left parseLine lines st))).
  { induction lines as [|line lines IH]; intros st Hst; [exact Hst |].
    cbn [fold_left]. apply IH, parseLine_versioned, Hst. }
  apply Hfold. constructor.
Qed.

(** *** The next milestone after the current stable version *)

(** When the roadmap has a milestone [next] above the current version that
    is strictly below every other such milestone, the plan is built from
    [next]. *)
Lemma plan_from_next_milestone (md url : string) (current : ParsedSemver)
  (next : RoadmapMilestone) :
  In next (parseRoadmapMarkdown md) ->
  0 < compareSemver (version next) current ->
  (forall m, In m (parseRoadmapMarkdown md) ->
             0 < compareSemver (version m) current ->
             m = next \/ compareSemver (version next) (version m) < 0) ->
  fetchUpcomingReleasePlan
    (Resolved (Some {| markdown := md; sourceUrl := url |})) (Resolved (Some current))
  = Some {| currentVersion := Some (formatSemver current);
            nextVersionHeading := heading next;
            planItems :=
              orPlaceholder
                (if Nat.ltb 0 (List.length (uncheckedTexts next)) then uncheckedTexts next
                 else map text (items next));
            planSourceUrl := Some url;
            hasNextVersion := true |}.
Proof.
  intros Hin Hnext Hleast. unfold fetchUpcomingReleasePlan. cbn [markdown sourceUrl].
  rewrite sort_length.
  destruct (parseRoadmapMarkdown md) as [|m0 ms] eqn:Hparse; [contradiction |].
  rewrite <- Hparse in *. replace (Nat.eqb (List.length (parseRoadmapMarkdown md)) 0) with false
    by (rewrite Hparse; reflexivity).
  rewrite (sort_find_least (fun a b => compareSemver (version a) (version b))
             (fun a b => compareSemver_total (version a) (version b))
             (fun a b c => compareSemver_trans (version a) (version b) (version c))
             (fun milestone => 0 <? compareSemver (version milestone) current)
             (parseRoadmapMarkdown md) next).
  - reflexivity.
  - intros a b. apply compareSemver_anti.
  - exact Hin.
  - now apply Z.ltb_lt.
  - intros m Hm Hp. apply Z.ltb_lt in Hp. now apply Hleast.
Qed.

(** *** Reading back a written roadmap *)

Lemma splitLines_cons (c : ascii) (rest : string) :
  splitLines (String c rest)
  = if Nat.eqb (code c) 10 then EmptyString :: splitLines rest
    else
      match rest with
      | String c2 rest2 =>
          if (Nat.eqb (code c) 13 && Nat.eqb (code c2) 10)%bool
          then EmptyString :: splitLines rest2
          else consToHead c (splitLines rest)
      | EmptyString => [String c EmptyString]
      end.
Proof. reflexivity. Qed.

Lemma splitLines_plain (l : string) :
  allChars isDot l = true -> splitLines l = [l].
Proof.
  induction l as [|c l IH]; [reflexivity |].
  cbn [allChars]. rewrite andb_true_iff. unfold isDot at 1. rewrite negb_true_iff, orb_false_iff.
  intros [[Hlf Hcr] Hl]. rewrite splitLines_cons, Hlf, Hcr, (IH Hl).
  now destruct l.
Qed.

Lemma splitLines_line (l rest : string) :
  allChars isDot l = true ->
  splitLines (l ++ lineFeed ++ rest) = l :: splitLines rest.
Proof.
  induction l as [|c l IH]; [reflexivity |].
  cbn [allChars]. rewrite andb_true_iff. unfold isDot at 1. rewrite negb_true_iff, orb_false_iff.
  intros [[Hlf Hcr] Hl]. cbn [String.append]. rewrite splitLines_cons, Hlf, Hcr, (IH Hl).
  destruct (l ++ lineFeed ++ rest)%string eqn:E; [| reflexivity].
  destruct l; discriminate E.
Qed.

Lemma splitLines_concat (lines : list string) :
  lines <> [] ->
  Forall (fun l => allChars isDot l = true) lines ->
  splitLines (String.concat lineFeed lines) = lines.
Proof.
  induction lines as [|l lines IH]; [contradiction |].
  intros _ Hall. inversion Hall as [|? ? Hl Hlines]; subst.
  destruct lines as [|l' lines'].
  - cbn [String.concat]. now apply splitLines_plain.
  - change (String.concat lineFeed (l :: l' :: lines'))
      with (l ++ lineFeed ++ String.concat lineFeed (l' :: lines'))%string.
    rewrite (splitLines_line _ _ Hl), IH; [reflexivity | discriminate | exact Hlines].
Qed.

Lemma trimEnd_plain (c : ascii) (s : string) :
  isSpace (lastChar c s) = false -> trimEnd (String c s) = String c s.
Proof.
  revert c; induction s as [|c' s IH]; intros c Hlast; cbn [trimEnd].
  - cbn [lastChar] in Hlast. now rewrite Hlast.
  - cbn [lastChar] in Hlast. pose proof (IH c' Hlast) as H. cbn [trimEnd] in H.
    now rewrite H.
Qed.

(** What [plainText] gives. *)
Lemma plainText_inv (s : string) :
  plainText s = true ->
  exists c s', s = String c s'
               /\ isSpace c = false
               /\ allChars isDot s = true
               /\ trim s = s.
Proof.
  destruct s as [|c s']; [discriminate |]. cbn [plainText].
  rewrite !andb_true_iff, !negb_true_iff. intros [[Hc Hdot] Hlast].
  exists c, s'. repeat split; try assumption.
  unfold trim. cbn [dropSpaces]. rewrite Hc. now apply trimEnd_plain.
Qed.

Lemma spacesThenRest_plain (s : string) :
  plainText s = true -> spacesThenRest (String " " s) = Some s.
Proof.
  intros Hplain. destruct (plainText_inv s Hplain) as [c [s' [-> [Hc [Hdot _]]]]].
  unfold spacesThenRest. cbn [span]. change (isSpace " ") with true. cbn iota.
  rewrite Hc. now rewrite Hdot.
Qed.

Lemma headingMatch_rendered (h : string) :
  plainText h = true -> headingMatch ("## " ++ h) = Some h.
Proof.
  intros Hplain. unfold headingMatch. cbn [String.append startsWith dropTwo].
  change (Ascii.eqb "#" "#") with true. cbn [andb].
  now apply spacesThenRest_plain.
Qed.

Lemma parseLine_item (ms : list RoadmapMilestone) (item : RoadmapItem) :
  plainText (text item) = true ->
  parseLine {| milestones := ms; currentIsLast := true |} (renderItem item)
  = {| milestones := updateLast (pushItem item) ms; currentIsLast := true |}.
Proof.
  intros Hplain. destruct (plainText_inv _ Hplain) as [_ [_ [_ [_ [_ Htrim]]]]].
  destruct item as [d t]. cbn [text done] in *. unfold parseLine, renderItem. cbn [done text].
  replace (headingMatch ("- [" ++ (if d then "x" else " ") ++ "] " ++ t)) with (@None string)
    by reflexivity.
  assert (Htask : taskMatch ("- [" ++ (if d then "x" else " ") ++ "] " ++ t)
                  = Some ((if d then "x" else " ")%char, t)).
  { unfold taskMatch. cbn [String.append].
    change (isChar "-" "-") with true. cbn [orb]. cbn [span].
    change (isSpace " ") with true. cbn iota.
    change (isSpace "[") with false. cbn iota.
    destruct d; cbn [String.append]; rewrite (spacesThenRest_plain t Hplain); reflexivity. }
  rewrite Htask. cbn [currentIsLast milestones]. rewrite Htrim.
  now destruct d.
Qed.

Lemma updateLast_snoc {A : Type} (f : A -> A) (l : list A) (x : A) :
  updateLast f (l ++ [x]) = l ++ [f x].
Proof.
  induction l as [|a l IH]; [reflexivity |].
  cbn [app updateLast]. rewrite IH. destruct (l ++ [x]) eqn:E; [| reflexivity].
  destruct l; discriminate E.
Qed.

Lemma parse_items (ms : list RoadmapMilestone) (h : string) (v : ParsedSemver)
  (its : list RoadmapItem) :
  Forall (fun item => plainText (text item) = true) its ->
  forall acc,
    fold_left parseLine (map renderItem its)
      {| milestones := ms ++ [{| heading := h; version := v; items := acc |}];
         currentIsLast := true |}
    = {| milestones := ms ++ [{| heading := h; version := v; items := acc ++ its |}];
         currentIsLast := true |}.
Proof.
  induction 1 as [|item its Hitem _ IH]; intros acc; cbn [map fold_left].
  - now rewrite app_nil_r.
  - rewrite (parseLine_item _ _ Hitem), updateLast_snoc. unfold pushItem at 1.
    cbn [heading version items]. rewrite IH, <- app_assoc. reflexivity.
Qed.

Lemma parse_milestone (st : ParseState) (m : RoadmapMilestone) :
  WellFormedMilestone m ->
  fold_left parseLine (renderMilestone m) st
  = {| milestones := milestones st ++ [m]; currentIsLast := true |}.
Proof.
  intros [Hheading [Hversion Hitems]]. destruct m as [h v its]. cbn [heading version items] in *.
  unfold renderMilestone. cbn [heading items fold_left].
  destruct (plainText_inv _ Hheading) as [_ [_ [_ [_ [_ Htrim]]]]].
  replace (parseLine st ("## " ++ h))
    with {| milestones := milestones st ++ [{| heading := h; version := v; items := [] |}];
            currentIsLast := true |}
    by (unfold parseLine; now rewrite (headingMatch_rendered h Hheading), Htrim, Hversion).
  now rewrite (parse_items _ _ _ _ Hitems).
Qed.

Lemma rendered_lines_plain (m : RoadmapMilestone) :
  WellFormedMilestone m ->
  Forall (fun l => allChars isDot l = true) (renderMilestone m).
Proof.
  intros [Hheading [_ Hitems]]. unfold renderMilestone. constructor.
  - destruct (plainText_inv _ Hheading) as [_ [_ [_ [_ [Hdot _]]]]]. cbn [String.append allChars].
    now rewrite Hdot.
  - apply Forall_map. eapply Forall_impl; [| exact Hitems]. cbn beta.
    intros item Hplain. destruct (plainText_inv _ Hplain) as [_ [_ [_ [_ [Hdot _]]]]].
    unfold renderItem. destruct (done item); cbn [String.append allChars]; now rewrite Hdot.
Qed.

(** Parsing a written roadmap gives back its milestones. *)
Theorem parse_rendered_roadmap (roadmap : list RoadmapMilestone) :
  Forall WellFormedMilestone roadmap ->
  parseRoadmapMarkdown (renderRoadmap roadmap) = roadmap.
Proof.
  intros Hwf. unfold parseRoadmapMarkdown, renderRoadmap.
  destruct roadmap as [|m0 roadmap0] eqn:E; [reflexivity |]. rewrite <- E in *.
  rewrite splitLines_concat.
  - assert (Hfold : forall ms st,
               Forall WellFormedMilestone ms ->
               milestones (fold_left parseLine (flat_map renderMilestone ms) st)
               = milestones st ++ ms).
    { induction ms as [|m ms IH]; intros st Hms; cbn [flat_map fold_left].
      - now rewrite app_nil_r.
      - inversion Hms as [|? ? Hm Hrest]; subst.
        rewrite fold_left_app, (parse_milestone st m Hm), (IH _ Hrest).
        cbn [milestones]. now rewrite <- app_assoc. }
    now rewrite (Hfold roadmap _ Hwf).
  - subst roadmap. cbn [flat_map renderMilestone]. discriminate.
  - clear E. induction Hwf as [|m ms Hm _ IH]; cbn [flat_map]; [constructor |].
    apply Forall_app. split; [now apply rendered_lines_plain | exact IH].
Qed.

(** C9. For a roadmap whose milestones are the heading [v1.2.0], with every
    item checked, and the heading [v1.3.0], with exactly one unchecked item,
    and the current stable version v1.2.0, the plan has the next version
    heading ["v1.3.0"] and its items are the text of that unchecked item
    alone. *)
Theorem upcoming_plan_next_version (md url : string) (m12 m13 : RoadmapMilestone)
  (task : string) :
  Permutation [m12; m13] (parseRoadmapMarkdown md) ->
  heading m12 = "v1.2.0" ->
  forallb done (items m12) = true ->
  heading m13 = "v1.3.0" ->
  filter (fun item => negb (done item)) (items m13) = [{| done := false; text := task |}] ->
  fetchUpcomingReleasePlan
    (Resolved (Some {| markdown := md; sourceUrl := url |}))
    (Resolved (parseSemver "v1.2.0"))
  = Some {| currentVersion := Some "v1.2.0";
            nextVersionHeading := "v1.3.0";
            planItems := [task];
            planSourceUrl := Some url;
            hasNextVersion := true |}.
Proof.
  intros Hperm Hh12 _ Hh13 Hopen.
  pose proof (parseRoadmapMarkdown_versioned md) as Hver. rewrite Forall_forall in Hver.
  assert (Hin12 : In m12 (parseRoadmapMarkdown md))
    by (apply (Permutation_in _ Hperm); now left).
  assert (Hin13 : In m13 (parseRoadmapMarkdown md))
    by (apply (Permutation_in _ Hperm); right; now left).
  assert (Hv12 : version m12 = {| major := 1; minor := 2; patch := 0 |}).
  { pose proof (Hver m12 Hin12) as H. rewrite Hh12 in H.
    change (versionOfHeading "v1.2.0") with (Some {| major := 1; minor := 2; patch := 0 |}) in H.
    now injection H. }
  assert (Hv13 : version m13 = {| major := 1; minor := 3; patch := 0 |}).
  { pose proof (Hver m13 Hin13) as H. rewrite Hh13 in H.
    change (versionOfHeading "v1.3.0") with (Some {| major := 1; minor := 3; patch := 0 |}) in H.
    now injection H. }
  replace (parseSemver "v1.2.0") with (Some {| major := 1; minor := 2; patch := 0 |})
    by reflexivity.
  rewrite (plan_from_next_milestone md url _ m13 Hin13).
  - unfold uncheckedTexts. rewrite Hopen, Hh13. reflexivity.
  - rewrite Hv13. reflexivity.
  - intros m Hm Hpos. apply (Permutation_in _ (Permutation_sym Hperm)) in Hm.
    destruct Hm as [<- | [<- | []]]; [| now left].
    rewrite Hv12 in Hpos. vm_compute in Hpos. discriminate.
Qed.

Lemma upcoming_plan_next_version_witness :
  fetchUpcomingReleasePlan
    (Resolved (Some {| markdown := Samples.sampleRoadmap; sourceUrl := "ROADMAP.md" |}))
    (Resolved (parseSemver "v1.2.0"))
  = Some {| currentVersion := Some "v1.2.0";
            nextVersionHeading := "v1.3.0";
            planItems := ["Split view"];
            planSourceUrl := Some "ROADMAP.md";
            hasNextVersion := true |}.
Proof.
  apply (upcoming_plan_next_version Samples.sampleRoadmap "ROADMAP.md"
           {| heading := "v1.2.0";
              version := {| major := 1; minor := 2; patch := 0 |};
              items := [ {| done := true; text := "Tabs" |};
                         {| done := true; text := "Themes" |} ] |}
           {| heading := "v1.3.0";
              version := {| major := 1; minor := 3; patch := 0 |};
              items := [ {| done := true; text := "Sync" |};
                         {| done := false; text := "Split view" |} ] |}
           "Split view").
  - vm_compute. apply Permutation_refl.
  - reflexivity.
  - reflexivity.
  - reflexivity.
  - reflexivity.
Defined.

(** The same for every roadmap written in the usual way: the milestone
    [v1.2.0] with checked items only, then the milestone [v1.3.0] with checked
    items around a single unchecked one. *)
Lemma unchecked_among_checked (before after : list string) (task : string) :
  filter (fun item => negb (done item))
    (map (fun t => {| done := true; text := t |}) before
     ++ {| done := false; text := task |}
        :: map (fun t => {| done := true; text := t |}) after)
  = [{| done := false; text := task |}].
Proof.
  assert (Hchecked : forall l,
             filter (fun item => negb (done item))
               (map (fun t => {| done := true; text := t |}) l) = []).
  { induction l as [|t l IH]; [reflexivity | exact IH]. }
  rewrite filter_app, Hchecked. cbn [filter done negb app]. now rewrite Hchecked.
Qed.

Corollary upcoming_plan_written_roadmap (checked before after : list string)
  (task url : string) :
  Forall (fun t => plainText t = true) (checked ++ before ++ task :: after) ->
  fetchUpcomingReleasePlan
    (Resolved
       (Some {| markdown :=
                  renderRoadmap
                    [ {| heading := "v1.2.0";
                         version := {| major := 1; minor := 2; patch := 0 |};
                         items := map (fun t => {| done := true; text := t |}) checked |};
                      {| heading := "v1.3.0";
                         version := {| major := 1; minor := 3; patch := 0 |};
                         items :=
                           map (fun t => {| done := true; text := t |}) before
                           ++ {| done := false; text := task |}
                              :: map (fun t => {| done := true; text := t |}) after |} ];
                sourceUrl := url |}))
    (Resolved (parseSemver "v1.2.0"))
  = Some {| currentVersion := Some "v1.2.0";
            nextVersionHeading := "v1.3.0";
            planItems := [task];
            planSourceUrl := Some url;
            hasNextVersion := true |}.
Proof.
  intros Hplain.
  apply Forall_app in Hplain. destruct Hplain as [Hchecked Hplain].
  apply Forall_app in Hplain. destruct Hplain as [Hbefore Hplain].
  inversion Hplain as [|? ? Htask Hafter]; subst.
  set (m12 := {| heading := "v1.2.0"; version := _; items := _ |}).
  set (m13 := {| heading := "v1.3.0"; version := _; items := _ |}).
  assert (Hparse : parseRoadmapMarkdown (renderRoadmap [m12; m13]) = [m12; m13]).
  { apply parse_rendered_roadmap. repeat constructor; cbn [heading version items m12 m13].
    - apply Forall_map. exact Hchecked.
    - apply Forall_app. split; [apply Forall_map; exact Hbefore |].
      constructor; [exact Htask | apply Forall_map; exact Hafter]. }
  replace (parseSemver "v1.2.0") with (Some {| major := 1; minor := 2; patch := 0 |})
    by reflexivity.
  rewrite (plan_from_next_milestone _ url _ m13).
  - unfold uncheckedTexts. cbn [items m13]. rewrite unchecked_among_checked. reflexivity.
  - rewrite Hparse. right. now left.
  - reflexivity.
  - rewrite Hparse. intros m [<- | [<- | []]] Hpos; [discriminate Hpos | now left].
Qed.

End AboutFacts.

(** * Further properties of the code *)

(** ** The Release Resolver, continued *)

Module ResolverFacts.
Import JS JSFacts Downloads DownloadsFacts.

Lemma windowsPortableAssets_In (release : GitHubRelease) (a : ReleaseAsset) :
  In a (windowsPortableAssets release) <->
  In a (assets release)
  /\ isDownloadableAsset (name a) = true
  /\ isWindowsAsset (name a) = true
  /\ isPortableAsset (name a) = true.
Proof.
  unfold windowsPortableAssets, windowsAssets, downloadableAssets.
  rewrite !filter_In. tauto.
Qed.

(** The four mac pools, as the fallback over the mac candidates. *)
Lemma mac_pools_as_candidates (release : GitHubRelease) :
  macArm64InstallerPool release
  = poolOrFallback (macCandidates release Arm64 isInstallerAsset)
      (macCandidates release UnknownArch isInstallerAsset)
  /\ macArm64PortablePool release
     = poolOrFallback (macCandidates release Arm64 isPortableAsset)
         (macCandidates release UnknownArch isPortableAsset)
  /\ macX64InstallerPool release
     = poolOrFallback (macCandidates release X64 isInstallerAsset)
         (macCandidates release UnknownArch isInstallerAsset)
  /\ macX64PortablePool release
     = poolOrFallback (macCandidates release X64 isPortableAsset)
         (macCandidates release UnknownArch isPortableAsset).
Proof.
  unfold_pools. now rewrite !nested_filters_macCandidates.
Qed.

(** A member of a mac pool has the architecture of the slot, or an unknown
    architecture when the release has no candidate of that architecture. *)
Lemma poolOrFallback_In (release : GitHubRelease) (arch : MacArch) (style : string -> bool)
  (a : ReleaseAsset) :
  In a (poolOrFallback (macCandidates release arch style)
          (macCandidates release UnknownArch style)) ->
  IsMacCandidate arch style a
  \/ (IsMacCandidate UnknownArch style a /\ macCandidates release arch style = []).
Proof.
  destruct (macCandidates release arch style) as [|c l] eqn:E.
  - rewrite poolOrFallback_nil by reflexivity. intros Hin.
    apply macCandidates_In in Hin. right. tauto.
  - rewrite poolOrFallback_exact by discriminate. rewrite <- E. intros Hin.
    apply macCandidates_In in Hin. left. tauto.
Qed.

(** X1. The asset of a slot has the classification of the slot: a Windows
    slot holds a Windows file of the style of the slot; a mac slot holds a mac
    file of the style of the slot, whose architecture is that of the slot, or
    is unknown, and then the release has no downloadable mac file of that
    style with the architecture of the slot. *)
Theorem slot_asset_classification (release : GitHubRelease) (a : ReleaseAsset) :
  (asset (windowsInstaller (buildDownloadSlots release)) = Some a ->
   isWindowsAsset (name a) = true /\ isInstallerAsset (name a) = true)
  /\ (asset (windowsPortable (buildDownloadSlots release)) = Some a ->
      isWindowsAsset (name a) = true /\ isPortableAsset (name a) = true)
  /\ (asset (macArm64Installer (buildDownloadSlots release)) = Some a ->
      isMacAsset (name a) = true /\ isInstallerAsset (name a) = true
      /\ (getMacAssetArchitecture (name a) = Arm64
          \/ (getMacAssetArchitecture (name a) = UnknownArch
              /\ macCandidates release Arm64 isInstallerAsset = [])))
  /\ (asset (macArm64Portable (buildDownloadSlots release)) = Some a ->
      isMacAsset (name a) = true /\ isPortableAsset (name a) = true
      /\ (getMacAssetArchitecture (name a) = Arm64
          \/ (getMacAssetArchitecture (name a) = UnknownArch
              /\ macCandidates release Arm64 isPortableAsset = [])))
  /\ (asset (macX64Installer (buildDownloadSlots release)) = Some a ->
      isMacAsset (name a) = true /\ isInstallerAsset (name a) = true
      /\ (getMacAssetArchitecture (name a) = X64
          \/ (getMacAssetArchitecture (name a) = UnknownArch
              /\ macCandidates release X64 isInstallerAsset = [])))
  /\ (asset (macX64Portable (buildDownloadSlots release)) = Some a ->
      isMacAsset (name a) = true /\ isPortableAsset (name a) = true
      /\ (getMacAssetArchitecture (name a) = X64
          \/ (getMacAssetArchitecture (name a) = UnknownArch
              /\ macCandidates release X64 isPortableAsset = []))).
Proof.
  destruct (mac_pools_as_candidates release) as [Hai [Hap [Hxi Hxp]]].
  cbn [buildDownloadSlots windowsInstaller windowsPortable macArm64Installer
         macArm64Portable macX64Installer macX64Portable asset].
  rewrite Hai, Hap, Hxi, Hxp.
  repeat match goal with |- _ /\ _ => split end; intros Hslot;
    apply chooseBestAsset_In in Hslot.
  - apply windowsInstallerAssets_In in Hslot. tauto.
  - apply windowsPortableAssets_In in Hslot. tauto.
  - apply poolOrFallback_In in Hslot. unfold IsMacCandidate in Hslot. tauto.
  - apply poolOrFallback_In in Hslot. unfold IsMacCandidate in Hslot. tauto.
  - apply poolOrFallback_In in Hslot. unfold IsMacCandidate in Hslot. tauto.
  - apply poolOrFallback_In in Hslot. unfold IsMacCandidate in Hslot. tauto.
Qed.

Lemma slot_asset_classification_witness :
  isMacAsset (name Samples.plainDmg) = true
  /\ isInstallerAsset (name Samples.plainDmg) = true
  /\ (getMacAssetArchitecture (name Samples.plainDmg) = X64
      \/ (getMacAssetArchitecture (name Samples.plainDmg) = UnknownArch
          /\ macCandidates Samples.stableRelease X64 isInstallerAsset = [])).
Proof.
  apply (proj1 (proj2 (proj2 (proj2 (proj2
           (slot_asset_classification Samples.stableRelease Samples.plainDmg)))))).
  reflexivity.
Defined.

(** X2. One file is offered by the Apple Silicon slot and by the Intel slot
    of a style only when its architecture is unknown. *)
Theorem shared_mac_asset_has_unknown_architecture (release : GitHubRelease)
  (a : ReleaseAsset) :
  (asset (macArm64Installer (buildDownloadSlots release)) = Some a
   /\ asset (macX64Installer (buildDownloadSlots release)) = Some a)
  \/ (asset (macArm64Portable (buildDownloadSlots release)) = Some a
      /\ asset (macX64Portable (buildDownloadSlots release)) = Some a) ->
  getMacAssetArchitecture (name a) = UnknownArch.
Proof.
  destruct (mac_pools_as_candidates release) as [Hai [Hap [Hxi Hxp]]].
  cbn [buildDownloadSlots macArm64Installer macArm64Portable macX64Installer
         macX64Portable asset].
  rewrite Hai, Hap, Hxi, Hxp.
  intros [[Harm Hx] | [Harm Hx]];
    apply chooseBestAsset_In, poolOrFallback_In in Harm;
    apply chooseBestAsset_In, poolOrFallback_In in Hx;
    unfold IsMacCandidate in Harm, Hx;
    destruct Harm as [[_ [_ [Ha _]]] | [[_ [_ [Ha _]]] _]]; try exact Ha;
    destruct Hx as [[_ [_ [Hb _]]] | [[_ [_ [Hb _]]] _]]; congruence.
Qed.

Lemma shared_mac_asset_has_unknown_architecture_witness :
  getMacAssetArchitecture (name Samples.plainDmg) = UnknownArch.
Proof.
  apply (shared_mac_asset_has_unknown_architecture Samples.plainRelease).
  left. split; reflexivity.
Defined.

(** *** The order of the pool breaks the remaining ties *)

Lemma filter_head_split {A : Type} (p : A -> bool) (l : list A) (x : A) (r : list A) :
  filter p l = x :: r ->
  exists l1 l2, l = l1 ++ x :: l2 /\ forall y, In y l1 -> p y = false.
Proof.
  induction l as [|a l IH]; [discriminate |]. cbn [filter].
  destruct (p a) eqn:Hpa.
  - intros [= -> _]. exists [], l. split; [reflexivity | intros y []].
  - intros Hf. destruct (IH Hf) as [l1 [l2 [-> Hl1]]].
    exists (a :: l1), l2. split; [reflexivity |].
    intros y [<- | Hy]; auto.
Qed.

(** X3. Among the candidates of the highest score and, there, of the largest
    size, [chooseBestAsset] returns the one that comes first in the pool:
    every candidate before the chosen one scores lower, or scores the same and
    is smaller. *)
Theorem chooseBestAsset_first_of_the_best (pool : list ReleaseAsset)
  (preferredTerms : list string) (best : ReleaseAsset) :
  chooseBestAsset pool preferredTerms = Some best ->
  exists before after,
    pool = before ++ best :: after
    /\ forall a, In a before ->
                 assetScore preferredTerms a < assetScore preferredTerms best
                 \/ (assetScore preferredTerms a = assetScore preferredTerms best
                     /\ size a < size best).
Proof.
  intros Hbest.
  assert (Hne : pool <> []) by (intros ->; discriminate Hbest).
  destruct (chooseBestAsset_best pool preferredTerms Hne) as [best' [Hbest' [_ [Hscore Hsize]]]].
  rewrite Hbest in Hbest'. injection Hbest' as <-.
  unfold chooseBestAsset in Hbest.
  destruct (Nat.eqb (List.length pool) 0); [discriminate Hbest |]. cbn zeta in Hbest.
  set (same := fun a : ReleaseAsset =>
                 ((assetScore preferredTerms a =? assetScore preferredTerms best)
                  && (size a =? size best))%bool).
  assert (Hstable : filter same (sort (compareAssets preferredTerms) pool) = filter same pool).
  { apply sort_stable. unfold same. intros a b Ha Hb.
    apply andb_true_iff in Ha, Hb. rewrite !Z.eqb_eq in Ha, Hb.
    apply compareAssets_le. lia. }
  destruct (sort (compareAssets preferredTerms) pool) as [|x sorted] eqn:Hsorted;
    [discriminate Hbest |].
  cbn [hd_error] in Hbest. injection Hbest as ->.
  cbn [filter] in Hstable.
  replace (same best) with true in Hstable by (unfold same; now rewrite !Z.eqb_refl).
  symmetry in Hstable.
  destruct (filter_head_split same pool best _ Hstable) as [before [after [Hpool Hbefore]]].
  exists before, after. split; [exact Hpool |].
  intros a Ha. specialize (Hbefore a Ha). unfold same in Hbefore.
  assert (Hin : In a pool) by (rewrite Hpool; apply in_or_app; now left).
  specialize (Hscore a Hin). specialize (Hsize a Hin).
  apply andb_false_iff in Hbefore. rewrite !Z.eqb_neq in Hbefore. lia.
Qed.

Lemma chooseBestAsset_first_of_the_best_witness :
  exists before after,
    [Samples.mirrorA; Samples.mirrorB] = before ++ Samples.mirrorA :: after
    /\ forall a, In a before ->
                 assetScore ["setup"; ".msi"; ".exe"] a
                 < assetScore ["setup"; ".msi"; ".exe"] Samples.mirrorA
                 \/ (assetScore ["setup"; ".msi"; ".exe"] a
                     = assetScore ["setup"; ".msi"; ".exe"] Samples.mirrorA
                     /\ size a < size Samples.mirrorA).
Proof.
  apply (chooseBestAsset_first_of_the_best [Samples.mirrorA; Samples.mirrorB]).
  reflexivity.
Defined.

(** *** Files that are always offered *)

Lemma chooseBestAsset_of_member (pool : list ReleaseAsset) (preferredTerms : list string)
  (a : ReleaseAsset) :
  In a pool -> chooseBestAsset pool preferredTerms <> None.
Proof.
  intros Hin Hnone. apply chooseBestAsset_None in Hnone. now rewrite Hnone in Hin.
Qed.

Lemma downloadable_by_extension (n ext : string) :
  In ext downloadableExtensions ->
  endsWith (toLowerCase n) ext = true ->
  isDownloadableAsset n = true.
Proof.
  intros Hin Hends. unfold isDownloadableAsset. apply existsb_exists. now exists ext.
Qed.

(** X4. A release that ships a file whose name ends in [.exe] or [.msi]
    (in any letter case) offers a Windows download; one that ships a [.dmg] or
    [.pkg] file offers a macOS installer: for Apple Silicon unless the name
    says x64, for Intel unless the name says arm64. *)
Theorem shipped_installers_are_offered (release : GitHubRelease) (a : ReleaseAsset) :
  In a (assets release) ->
  (endsWith (toLowerCase (name a)) ".exe" = true
   \/ endsWith (toLowerCase (name a)) ".msi" = true ->
   asset (windowsInstaller (buildDownloadSlots release)) <> None
   \/ asset (windowsPortable (buildDownloadSlots release)) <> None)
  /\ (endsWith (toLowerCase (name a)) ".dmg" = true
      \/ endsWith (toLowerCase (name a)) ".pkg" = true ->
      (getMacAssetArchitecture (name a) <> X64 ->
       asset (macArm64Installer (buildDownloadSlots release)) <> None)
      /\ (getMacAssetArchitecture (name a) <> Arm64 ->
          asset (macX64Installer (buildDownloadSlots release)) <> None)).
Proof.
  intros Hin. split.
  - intros Hext.
    assert (Hdl : isDownloadableAsset (name a) = true)
      by (destruct Hext as [H | H];
          eapply downloadable_by_extension; try exact H; cbn; tauto).
    assert (Hwin : isWindowsAsset (name a) = true)
      by (unfold isWindowsAsset; cbn zeta; destruct Hext as [-> | ->];
          now rewrite ?orb_true_r).
    cbn [buildDownloadSlots windowsInstaller windowsPortable asset].
    destruct (isInstallerAsset (name a)) eqn:Hinst.
    + left. apply (chooseBestAsset_of_member _ _ a), windowsInstallerAssets_In. tauto.
    + right. apply (chooseBestAsset_of_member _ _ a), windowsPortableAssets_In.
      repeat split; try assumption.
      unfold isInstallerAsset in Hinst. cbn zeta in Hinst.
      rewrite !orb_false_iff in Hinst. destruct Hinst as [[[Hsetup Hmsi] _] _].
      unfold isPortableAsset. cbn zeta. rewrite Hsetup.
      destruct Hext as [Hexe | Hmsi']; [| congruence].
      rewrite Hexe. cbn [negb andb]. now rewrite !orb_true_r.
  - intros Hext.
    assert (Hdl : isDownloadableAsset (name a) = true)
      by (destruct Hext as [H | H];
          eapply downloadable_by_extension; try exact H; cbn; tauto).
    assert (Hmac : isMacAsset (name a) = true)
      by (unfold isMacAsset; cbn zeta; destruct Hext as [-> | ->];
          now rewrite ?orb_true_r).
    assert (Hinst : isInstallerAsset (name a) = true)
      by (unfold isInstallerAsset; cbn zeta; destruct Hext as [-> | ->];
          now rewrite ?orb_true_r).
    assert (Hcand : In a (macCandidates release (getMacAssetArchitecture (name a))
                            isInstallerAsset))
      by (apply macCandidates_In; unfold IsMacCandidate; tauto).
    destruct (mac_pools_as_candidates release) as [Hai [_ [Hxi _]]].
    cbn [buildDownloadSlots macArm64Installer macX64Installer asset].
    rewrite Hai, Hxi.
    split; intros Harch.
    + destruct (macCandidates release Arm64 isInstallerAsset) as [|c l] eqn:E.
      * rewrite poolOrFallback_nil by reflexivity.
        apply (chooseBestAsset_of_member _ _ a).
        destruct (getMacAssetArchitecture (name a)); [now rewrite E in Hcand | congruence |].
        exact Hcand.
      * rewrite poolOrFallback_exact by discriminate.
        apply (chooseBestAsset_of_member _ _ c). now left.
    + destruct (macCandidates release X64 isInstallerAsset) as [|c l] eqn:E.
      * rewrite poolOrFallback_nil by reflexivity.
        apply (chooseBestAsset_of_member _ _ a).
        destruct (getMacAssetArchitecture (name a)); [congruence | now rewrite E in Hcand |].
        exact Hcand.
      * rewrite poolOrFallback_exact by discriminate.
        apply (chooseBestAsset_of_member _ _ c). now left.
Qed.

Lemma shipped_installers_are_offered_witness :
  asset (windowsInstaller (buildDownloadSlots Samples.stableRelease)) <> None
  \/ asset (windowsPortable (buildDownloadSlots Samples.stableRelease)) <> None.
Proof.
  apply (proj1 (shipped_installers_are_offered Samples.stableRelease Samples.installerMsi
                  ltac:(cbn; tauto))).
  right. reflexivity.
Defined.

(** *** Which release is shown *)

Lemma hd_error_filter_split {A : Type} (p : A -> bool) (l : list A) (x : A) :
  hd_error (filter p l) = Some x ->
  p x = true
  /\ exists l1 l2, l = l1 ++ x :: l2 /\ forall y, In y l1 -> p y = false.
Proof.
  destruct (filter p l) as [|y r] eqn:E; [discriminate |].
  intros [= ->]. split.
  - assert (Hin : In x (filter p l)) by (rewrite E; now left).
    now apply filter_In in Hin.
  - now apply (filter_head_split p l x r).
Qed.

(** X5. A release is selected exactly when the list is not empty, and it is
    a release of the list.  When pre-releases are included it is the first of
    the list; otherwise it is stable and every release before it in the list
    is a pre-release.  The slots exist exactly when a release is selected. *)
Theorem selectRelease_first_eligible (requested : bool) (allReleases : list GitHubRelease) :
  (selectedRelease (selectRelease requested allReleases) = None <-> allReleases = [])
  /\ (slots (selectRelease requested allReleases) = None <->
      selectedRelease (selectRelease requested allReleases) = None)
  /\ (forall release,
        selectedRelease (selectRelease requested allReleases) = Some release ->
        slots (selectRelease requested allReleases) = Some (buildDownloadSlots release)
        /\ exists newer older,
             allReleases = newer ++ release :: older
             /\ (effectiveIncludePrereleases (selectRelease requested allReleases) = true ->
                 newer = [])
             /\ (effectiveIncludePrereleases (selectRelease requested allReleases) = false ->
                 prerelease release = false
                 /\ forall r, In r newer -> prerelease r = true)).
Proof.
  unfold selectRelease; cbn [selectedRelease slots effectiveIncludePrereleases].
  destruct (stableReleases allReleases) as [|s stable] eqn:Hstable.
  - (* no stable release: pre-releases are forced *)
    cbn [List.length Nat.ltb Nat.leb negb]. rewrite orb_true_r.
    destruct allReleases as [|r0 rest]; cbn [hd_error].
    + split; [tauto |]. split; [tauto |]. intros release H. discriminate H.
    + split; [split; discriminate |]. split; [split; discriminate |].
      intros release [= <-]. split; [reflexivity |].
      exists [], rest. split; [reflexivity |]. split; [reflexivity | discriminate].
  - change (Nat.ltb 0 (List.length (s :: stable))) with true. cbn [negb]. rewrite orb_false_r.
    assert (Hs : hd_error (filter (fun r => negb (prerelease r)) allReleases) = Some s)
      by (unfold stableReleases in Hstable; now rewrite Hstable).
    destruct (hd_error_filter_split _ _ _ Hs) as [Hps [newer [older [Hall Hnewer]]]].
    destruct allReleases as [|r0 rest]; [destruct newer; discriminate Hall |].
    destruct requested; cbn [hd_error orb].
    + split; [split; discriminate |]. split; [split; discriminate |].
      intros release [= <-]. split; [reflexivity |].
      exists [], rest. split; [reflexivity |]. split; [reflexivity | discriminate].
    + split; [split; discriminate |]. split; [split; discriminate |].
      intros release [= <-]. split; [reflexivity |].
      exists newer, older. split; [exact Hall |]. split; [discriminate |].
      intros _. split; [now apply negb_true_iff |].
      intros r Hr. specialize (Hnewer r Hr). now apply negb_false_iff in Hnewer.
Qed.

Lemma selectRelease_first_eligible_witness :
  slots (selectRelease false [Samples.betaRelease; Samples.stableRelease])
  = Some (buildDownloadSlots Samples.stableRelease)
  /\ exists newer older,
       [Samples.betaRelease; Samples.stableRelease] = newer ++ Samples.stableRelease :: older
       /\ (effectiveIncludePrereleases
             (selectRelease false [Samples.betaRelease; Samples.stableRelease]) = true ->
           newer = [])
       /\ (effectiveIncludePrereleases
             (selectRelease false [Samples.betaRelease; Samples.stableRelease]) = false ->
           prerelease Samples.stableRelease = false
           /\ forall r, In r newer -> prerelease r = true).
Proof.
  apply (proj2 (proj2 (selectRelease_first_eligible false
                         [Samples.betaRelease; Samples.stableRelease]))).
  reflexivity.
Defined.



(** *** Letter case *)

Lemma lowerChar_idempotent (c : ascii) : lowerChar (lowerChar c) = lowerChar c.
Proof. destruct c as [[] [] [] [] [] [] [] []]; reflexivity. Qed.

Lemma toLowerCase_idempotent (s : string) : toLowerCase (toLowerCase s) = toLowerCase s.
Proof.
  induction s as [|c s IH]; [reflexivity |].
  cbn [toLowerCase]. now rewrite lowerChar_idempotent, IH.
Qed.

(** X7. The classification of a file does not depend on the letter case of
    its name: a name and its lower-cased form are classified alike by every
    classifier, and so are two names that differ in case only. *)
Theorem classification_ignores_case (n : string) :
  isDownloadableAsset (toLowerCase n) = isDownloadableAsset n
  /\ isWindowsAsset (toLowerCase n) = isWindowsAsset n
  /\ isMacAsset (toLowerCase n) = isMacAsset n
  /\ getMacAssetArchitecture (toLowerCase n) = getMacAssetArchitecture n
  /\ isInstallerAsset (toLowerCase n) = isInstallerAsset n
  /\ isPortableAsset (toLowerCase n) = isPortableAsset n
  /\ forall n',
       toLowerCase n' = toLowerCase n ->
       isDownloadableAsset n' = isDownloadableAsset n
       /\ isWindowsAsset n' = isWindowsAsset n
       /\ isMacAsset n' = isMacAsset n
       /\ getMacAssetArchitecture n' = getMacAssetArchitecture n
       /\ isInstallerAsset n' = isInstallerAsset n
       /\ isPortableAsset n' = isPortableAsset n.
Proof.
  unfold isDownloadableAsset, isWindowsAsset, isMacAsset, getMacAssetArchitecture,
    isInstallerAsset, isPortableAsset. cbn zeta.
  rewrite !toLowerCase_idempotent.
  repeat match goal with |- _ /\ _ => split end; try reflexivity.
  intros n' ->. repeat split.
Qed.

Example classification_ignores_case_sample :
  isInstallerAsset "MIRA-SETUP.EXE" = true /\ isWindowsAsset "Mira.MSI" = true.
Proof. split; reflexivity. Qed.

End ResolverFacts.

(** ** The Client Platform Matcher, continued *)

Module MatcherFacts.
Import JS JSFacts Downloads Cards CardsFacts Detect.

(** *** Sorting on three keys *)

Section ThreeKeys.
Context {A : Type} (key : A -> Z).
Hypothesis key_range : forall x, key x = 0 \/ key x = 1 \/ key x = 2.

Lemma filter_key_In (k : Z) (l : list A) (x : A) :
  In x (filter (fun y => key y =? k) l) -> key x = k.
Proof. intros H. apply filter_In in H. now apply Z.eqb_eq. Qed.

(** A stable sort on a key with three values is the three groups one after
    the other, each in its original order. *)
Lemma sort_three_keys (l : list A) :
  sort (fun a b => key a - key b) l
  = filter (fun x => key x =? 0) l
    ++ filter (fun x => key x =? 1) l
    ++ filter (fun x => key x =? 2) l.
Proof.
  induction l as [|x l IH]; [reflexivity |].
  cbn [sort fold_right]. fold (sort (fun a b => key a - key b) l). rewrite IH.
  cbn [filter].
  destruct (key_range x) as [Hx | [Hx | Hx]]; rewrite Hx; cbn [Z.eqb]; cbn [app].
  - apply insertSorted_front. intros y _. destruct (key_range y) as [-> | [-> | ->]]; lia.
  - rewrite insertSorted_app, insertSorted_front; [reflexivity | |].
    + intros y Hy. apply in_app_or in Hy.
      destruct Hy as [Hy | Hy]; apply filter_key_In in Hy; lia.
    + intros y Hy. apply filter_key_In in Hy. lia.
  - rewrite app_assoc, insertSorted_app, insertSorted_front, <- app_assoc; [reflexivity | |].
    + intros y Hy. apply filter_key_In in Hy. lia.
    + intros y Hy. apply in_app_or in Hy.
      destruct Hy as [Hy | Hy]; apply filter_key_In in Hy; lia.
Qed.
End ThreeKeys.

Lemma getRelevanceScore_range (os : DetectedOS) (slot : DownloadSlot) :
  getRelevanceScore slot os = 0 \/ getRelevanceScore slot os = 1
  \/ getRelevanceScore slot os = 2.
Proof.
  rewrite getRelevanceScore_relevanceTable. destruct os, (platform slot); simpl; tauto.
Qed.

Lemma filter_none {A : Type} (p : A -> bool) (l : list A) :
  (forall x, p x = false) -> filter p l = [].
Proof.
  intros Hp. induction l as [|x l IH]; [reflexivity |]. cbn [filter]. now rewrite Hp.
Qed.

(** X8. The displayed order for each detected platform: with windows, the
    windows slots and then the mac slots; with generic mac, the mac slots and
    then the windows slots; with mac-x64, the mac-x64 slots, then the mac-arm64
    slots, then the windows slots; each group in the order the slots were
    given.  In general the slots of score 0 come first, then those of score 1,
    then those of score 2. *)
Theorem orderedSlots_groups (slots : list DownloadSlot) :
  (forall os,
     orderedSlots slots os
     = filter (scoreIs os 0) slots ++ filter (scoreIs os 1) slots
       ++ filter (scoreIs os 2) slots)
  /\ orderedSlots slots OsWindows
     = filter (hasPlatform Windows) slots
       ++ filter (fun slot => negb (hasPlatform Windows slot)) slots
  /\ orderedSlots slots OsMac
     = filter (fun slot => negb (hasPlatform Windows slot)) slots
       ++ filter (hasPlatform Windows) slots
  /\ orderedSlots slots OsMacX64
     = filter (hasPlatform MacX64) slots
       ++ filter (hasPlatform MacArm64) slots
       ++ filter (hasPlatform Windows) slots.
Proof.
  assert (Hgroups : forall os,
             orderedSlots slots os
             = filter (scoreIs os 0) slots ++ filter (scoreIs os 1) slots
               ++ filter (scoreIs os 2) slots).
  { intros os. unfold orderedSlots.
    apply (sort_three_keys (fun slot => getRelevanceScore slot os)
             (getRelevanceScore_range os)). }
  assert (Hby : forall os (k : Z) (p : DownloadSlot -> bool),
             (forall slot, scoreIs os k slot = p slot) ->
             filter (scoreIs os k) slots = filter p slots)
    by (intros os k p Hp; now apply filter_ext).
  assert (Hscore : forall os k slot,
             scoreIs os k slot = (relevanceTable os (platform slot) =? k))
    by (intros; unfold scoreIs; now rewrite getRelevanceScore_relevanceTable).
  split; [exact Hgroups |].
  repeat match goal with |- _ /\ _ => split end; rewrite Hgroups.
  - rewrite (Hby OsWindows 0 (hasPlatform Windows)),
      (filter_none (scoreIs OsWindows 1)),
      (Hby OsWindows 2 (fun slot => negb (hasPlatform Windows slot))); try reflexivity;
      intros slot; rewrite Hscore; unfold hasPlatform; now destruct (platform slot).
  - rewrite (Hby OsMac 0 (fun slot => negb (hasPlatform Windows slot))),
      (filter_none (scoreIs OsMac 1)),
      (Hby OsMac 2 (hasPlatform Windows)); try reflexivity;
      intros slot; rewrite Hscore; unfold hasPlatform; now destruct (platform slot).
  - rewrite (Hby OsMacX64 0 (hasPlatform MacX64)),
      (Hby OsMacX64 1 (hasPlatform MacArm64)),
      (Hby OsMacX64 2 (hasPlatform Windows)); try reflexivity;
      intros slot; rewrite Hscore; unfold hasPlatform; now destruct (platform slot).
Qed.

(** *** Dimmed cards *)

Lemma isApplicable_iff_score_zero (slot : DownloadSlot) (os : DetectedOS) :
  isApplicable slot os = true <-> getRelevanceScore slot os = 0.
Proof.
  unfold isApplicable, getRelevanceScore.
  destruct os, (platform slot); simpl; split; congruence.
Qed.

Lemma nth_error_mapWithIndex {A B : Type} (f : A -> nat -> B) (l : list A) :
  forall start i,
    nth_error (mapWithIndex f start l) i
    = option_map (fun x => f x (start + i)%nat) (nth_error l i).
Proof.
  induction l as [|x l IH]; intros start i.
  - destruct i; reflexivity.
  - destruct i as [|i]; cbn [mapWithIndex nth_error option_map].
    + now rewrite Nat.add_0_r.
    + rewrite IH. now rewrite Nat.add_succ_r.
Qed.

Lemma mapWithIndex_length {A B : Type} (f : A -> nat -> B) (l : list A) :
  forall start, List.length (mapWithIndex f start l) = List.length l.
Proof.
  induction l as [|x l IH]; intros start; [reflexivity |].
  cbn [mapWithIndex List.length]. now rewrite IH.
Qed.

(** X9. There is one card for each slot, the card at position [i] has index
    [i], and no dimmed card stands above a card at full strength: when a card
    is applicable, so is every card before it. *)
Theorem DownloadCards_dimmed_last (slots : list DownloadSlot) (os : DetectedOS) :
  List.length (DownloadCards slots os) = List.length slots
  /\ (forall i card, nth_error (DownloadCards slots os) i = Some card -> cardIndex card = i)
  /\ (forall i j above below,
        (i < j)%nat ->
        nth_error (DownloadCards slots os) i = Some above ->
        nth_error (DownloadCards slots os) j = Some below ->
        cardApplicable below = true ->
        cardApplicable above = true).
Proof.
  unfold DownloadCards. split; [| split].
  - rewrite mapWithIndex_length. unfold orderedSlots. apply sort_length.
  - intros i card. rewrite nth_error_mapWithIndex.
    destruct (nth_error (orderedSlots slots os) i); [| discriminate].
    intros [= <-]. reflexivity.
  - intros i j above below Hij. rewrite !nth_error_mapWithIndex.
    destruct (nth_error (orderedSlots slots os) i) as [si|] eqn:Hi; [| discriminate].
    destruct (nth_error (orderedSlots slots os) j) as [sj|] eqn:Hj; [| discriminate].
    intros [= <-] [= <-]. cbn [cardApplicable].
    rewrite !isApplicable_iff_score_zero. intros Hzero.
    pose proof (StronglySorted_nth_error _ _ (orderedSlots_sorted slots os) i j si sj Hij Hi Hj)
      as Hle. cbn beta in Hle.
    destruct (getRelevanceScore_range os si) as [H | [H | H]]; lia.
Qed.

Lemma DownloadCards_dimmed_last_witness :
  cardApplicable
    {| cardSlot := macArm64Installer (buildDownloadSlots Samples.stableRelease);
       cardApplicable := true; cardIndex := 0 |} = true.
Proof.
  apply (proj2 (proj2 (DownloadCards_dimmed_last
                         (slotList (buildDownloadSlots Samples.stableRelease)) OsMac))
           0%nat 1%nat _
           {| cardSlot := macArm64Portable (buildDownloadSlots Samples.stableRelease);
              cardApplicable := true; cardIndex := 1 |});
    [repeat constructor | reflexivity | reflexivity | reflexivity].
Defined.

(** *** Ordering again *)

Lemma sort_of_sorted {A : Type} (compare : A -> A -> Z) (l : list A) :
  StronglySorted (fun a b => compare a b <= 0) l -> sort compare l = l.
Proof.
  induction 1 as [|x l _ IH Hx]; [reflexivity |].
  cbn [sort fold_right]. fold (sort compare l). rewrite IH.
  apply insertSorted_front. now apply Forall_forall.
Qed.

(** X10. Ordering an ordered list again changes nothing, so the displayed
    order does not depend on how often it is recomputed. *)
Theorem orderedSlots_idempotent (slots : list DownloadSlot) (os : DetectedOS) :
  orderedSlots (orderedSlots slots os) os = orderedSlots slots os.
Proof.
  unfold orderedSlots at 1. apply sort_of_sorted.
  pose proof (orderedSlots_sorted slots os) as Hsorted.
  induction Hsorted as [|a l _ IH Hall]; constructor; [exact IH |].
  eapply Forall_impl; [| exact Hall]. intros b Hb. cbn beta in Hb. lia.
Qed.

End MatcherFacts.

(** ** Platform detection *)

Module DetectFacts.
Import JS Downloads Cards Detect.

Lemma normalizeArchitecture_no_x64 (value : option string) :
  normalizeArchitecture value false <> Some ArchX64.
Proof.
  unfold normalizeArchitecture. destruct value as [v|]; [| discriminate].
  destruct (String.eqb v ""); [discriminate |]. cbn zeta.
  destruct (_ || _)%bool; discriminate.
Qed.

Lemma forcedOS_never_unknown (forced : option string) (os : DetectedOS) :
  forcedOS forced = Some os -> os <> OsUnknown /\ os <> OsOther.
Proof.
  unfold forcedOS. destruct forced as [f|]; [| discriminate].
  repeat match goal with
    | |- context [if ?b then _ else _] => destruct b
    end; intros [= <-]; split; discriminate.
Qed.

(** X11. Detection never answers ["unknown"]: that value only stands for a
    detection that has not finished.  Without a [window] the answer is
    ["other"]. *)
Theorem detectOS_never_unknown (development : bool) (window : option Window) :
  detectOS development window <> OsUnknown
  /\ detectOS development None = OsOther.
Proof.
  split; [| reflexivity].
  unfold detectOS. destruct window as [w|]; [| discriminate].
  destruct (if development then forcedOS (option_map toLowerCase (osParam w)) else None)
    as [os|] eqn:Hforced.
  - destruct development; [| discriminate Hforced].
    now apply forcedOS_never_unknown in Hforced.
  - cbn zeta.
    repeat match goal with
      | |- context [if ?b then _ else _] => destruct b
      | |- context [match ?x with _ => _ end] => destruct x
      end; discriminate.
Qed.

(** X12. Outside development the [os] parameter of the address is not
    looked at.  In development a recognised value (in any letter case) decides
    the answer whatever the navigator says, and an unrecognised or absent one
    leaves detection as it is outside development. *)
Theorem detectOS_override_in_development_only (param : option string) (nav : Navigator) :
  detectOS false (Some {| osParam := param; navigator := nav |})
  = detectOS false (Some {| osParam := None; navigator := nav |})
  /\ (forall os,
        forcedOS (option_map toLowerCase param) = Some os ->
        detectOS true (Some {| osParam := param; navigator := nav |}) = os)
  /\ (forcedOS (option_map toLowerCase param) = None ->
      detectOS true (Some {| osParam := param; navigator := nav |})
      = detectOS false (Some {| osParam := param; navigator := nav |}))
  /\ (forall value,
        param = Some value ->
        (In (toLowerCase value) ["windows"; "win"] ->
         detectOS true (Some {| osParam := param; navigator := nav |}) = OsWindows)
        /\ (In (toLowerCase value) ["mac-arm64"; "arm64"; "mac-arm"; "macos-arm64"] ->
            detectOS true (Some {| osParam := param; navigator := nav |}) = OsMacArm64)
        /\ (In (toLowerCase value) ["mac-x64"; "x64"; "intel"; "mac-intel"; "macos-x64"] ->
            detectOS true (Some {| osParam := param; navigator := nav |}) = OsMacX64)
        /\ (In (toLowerCase value) ["mac"; "macos"] ->
            detectOS true (Some {| osParam := param; navigator := nav |}) = OsMac)).
Proof.
  split; [reflexivity |]. split; [| split].
  - intros os Hforced. unfold detectOS. cbn [osParam]. now rewrite Hforced.
  - intros Hforced. unfold detectOS. cbn [osParam]. now rewrite Hforced.
  - intros value ->. unfold detectOS. cbn [osParam option_map forcedOS In].
    repeat match goal with |- _ /\ _ => split end; intros Hin;
      repeat match type of Hin with
        | _ \/ _ => destruct Hin as [Hin | Hin]
        | False => contradiction
        end; rewrite <- Hin; reflexivity.
Qed.

Lemma detectOS_override_in_development_only_witness :
  detectOS true
    (Some {| osParam := Some "Intel";
             navigator := {| userAgentData := None; navigatorPlatform := "Win32";
                             userAgent := "Mozilla/5.0 (Windows NT 10.0)" |} |})
  = OsMacX64.
Proof.
  apply (proj1 (proj2 (detectOS_override_in_development_only (Some "Intel") _))).
  reflexivity.
Defined.

(** The architecture the structured API gave, when it gave x64. *)
Lemma structuredArchitecture_x64 (uaData : option UserAgentData) :
  structuredArchitecture uaData = Some ArchX64 ->
  exists d,
    uaData = Some d
    /\ (normalizeArchitecture (uaArchitecture d) true = Some ArchX64
        \/ (normalizeArchitecture (uaArchitecture d) true = None
            /\ exists a, getHighEntropyValues d = ResolvesWith a
                         /\ normalizeArchitecture a true = Some ArchX64)).
Proof.
  unfold structuredArchitecture. destruct uaData as [d|].
  - destruct (normalizeArchitecture (uaArchitecture d) true) as [a0|] eqn:H0.
    + intros [= ->]. exists d. split; [reflexivity | now left].
    + destruct (getHighEntropyValues d) as [| |a] eqn:Hhe; try discriminate.
      intros Ha. exists d. split; [reflexivity |]. right. split; [exact H0 |].
      now exists a.
  - intros H. discriminate H.
Qed.

(** X13. Outside development, the answer ["mac-x64"] always rests on the
    structured API: the [architecture] of [userAgentData], or of its
    high-entropy values when the former gave nothing, names x64.  The
    user-agent text alone never gives ["mac-x64"]. *)
Theorem detectOS_mac_x64_needs_structured_architecture (w : Window) :
  detectOS false (Some w) = OsMacX64 ->
  exists d,
    userAgentData (navigator w) = Some d
    /\ (normalizeArchitecture (uaArchitecture d) true = Some ArchX64
        \/ (normalizeArchitecture (uaArchitecture d) true = None
            /\ exists a, getHighEntropyValues d = ResolvesWith a
                         /\ normalizeArchitecture a true = Some ArchX64)).
Proof.
  intros Hos. apply structuredArchitecture_x64.
  unfold detectOS in Hos. cbn zeta in Hos.
  destruct (structuredArchitecture (userAgentData (navigator w))) as [[|]|] eqn:Harch;
    [exfalso | reflexivity | exfalso].
  - repeat match type of Hos with
      | context [if ?b then _ else _] => destruct b
      end; discriminate Hos.
  - pose proof (normalizeArchitecture_no_x64
                  (Some (toLowerCase (userAgent (navigator w))))) as Hno.
    destruct (normalizeArchitecture (Some (toLowerCase (userAgent (navigator w)))) false)
      as [[|]|]; [| now apply Hno |];
      repeat match type of Hos with
        | context [if ?b then _ else _] => destruct b
        end; discriminate Hos.
Qed.

Lemma detectOS_mac_x64_needs_structured_architecture_witness :
  exists d,
    Some {| uaPlatform := Some "macOS"; uaArchitecture := None;
            getHighEntropyValues := ResolvesWith (Some "x86_64") |} = Some d
    /\ (normalizeArchitecture (uaArchitecture d) true = Some ArchX64
        \/ (normalizeArchitecture (uaArchitecture d) true = None
            /\ exists a, getHighEntropyValues d = ResolvesWith a
                         /\ normalizeArchitecture a true = Some ArchX64)).
Proof.
  apply (detectOS_mac_x64_needs_structured_architecture
           {| osParam := None;
              navigator :=
                {| userAgentData :=
                     Some {| uaPlatform := Some "macOS"; uaArchitecture := None;
                             getHighEntropyValues := ResolvesWith (Some "x86_64") |};
                   navigatorPlatform := "MacIntel";
                   userAgent := "Mozilla/5.0 (Macintosh; Intel Mac OS X 10_15_7)" |} |}).
  reflexivity.
Defined.

(** X14. Outside development the answer is ["other"] exactly when no signal
    names an operating system: the platform of [userAgentData] mentions
    neither [win] nor [mac], [navigator.platform] does not mention [win], the
    user agent mentions neither [windows] nor [mac os], and
    [navigator.platform] mentions [mac] only without a known architecture
    (the legacy platform alone does not make a Mac). *)
Theorem detectOS_other_iff_no_signal (w : Window) :
  detectOS false (Some w) = OsOther <->
  optIncludes
    (option_map toLowerCase
       (match userAgentData (navigator w) with Some d => uaPlatform d | None => None end))
    "win" = false
  /\ optIncludes
       (option_map toLowerCase
          (match userAgentData (navigator w) with Some d => uaPlatform d | None => None end))
       "mac" = false
  /\ includes (toLowerCase (navigatorPlatform (navigator w))) "win" = false
  /\ (includes (toLowerCase (navigatorPlatform (navigator w))) "mac" = true ->
      structuredArchitecture (userAgentData (navigator w)) = None)
  /\ includes (toLowerCase (userAgent (navigator w))) "windows" = false
  /\ includes (toLowerCase (userAgent (navigator w))) "mac os" = false.
Proof.
  unfold detectOS. cbn zeta.
  destruct (optIncludes _ "win"); [split; [discriminate | intros [H _]; discriminate H] |].
  destruct (optIncludes _ "mac");
    [split; [destruct (structuredArchitecture _) as [[|]|]; discriminate
            | intros [_ [H _]]; discriminate H] |].
  destruct (includes (toLowerCase (navigatorPlatform (navigator w))) "win");
    [split; [discriminate | intros [_ [_ [H _]]]; discriminate H] |].
  destruct (includes (toLowerCase (userAgent (navigator w))) "windows") eqn:Hwin,
    (includes (toLowerCase (userAgent (navigator w))) "mac os") eqn:Hmac,
    (includes (toLowerCase (navigatorPlatform (navigator w))) "mac") eqn:Hplat,
    (structuredArchitecture (userAgentData (navigator w))) as [[|]|];
    try destruct (normalizeArchitecture _ false) as [[|]|];
    split; try discriminate; try tauto; try (intuition discriminate);
    try (intros [_ [_ [_ [H _]]]]; discriminate (H eq_refl));
    try (intros [_ [_ [_ [_ [H _]]]]]; discriminate H);
    try (intros [_ [_ [_ [_ [_ H]]]]]; discriminate H).
Qed.

Lemma detectOS_other_iff_no_signal_witness :
  detectOS false
    (Some {| osParam := None;
             navigator := {| userAgentData := None; navigatorPlatform := "MacIntel";
                             userAgent := "Mozilla/5.0 (X11; Linux x86_64)" |} |})
  = OsOther.
Proof.
  apply (proj2 (detectOS_other_iff_no_signal _)).
  repeat split; reflexivity.
Defined.

End DetectFacts.

(** ** Versions and the roadmap *)

Module RoadmapFacts.
Import JS JSFacts About AboutFacts Versions.

(** *** Printing and reading a version *)











Lemma digitsValue_nonneg (s : string) : forall acc, 0 <= acc -> 0 <= digitsValue acc s.
Proof.
  induction s as [|c s IH]; intros acc Hacc; cbn [digitsValue]; [exact Hacc |].
  apply IH. lia.
Qed.



Lemma parseSemver_nonneg (value : string) (v : ParsedSemver) :
  parseSemver value = Some v -> 0 <= major v /\ 0 <= minor v /\ 0 <= patch v.
Proof.
  unfold parseSemver. destruct (searchSemver false _) as [[[m1 m2] m3]|]; [| discriminate].
  intros [= <-]. cbn [major minor patch]. unfold Number.
  repeat split; apply digitsValue_nonneg; lia.
Qed.



(** X16. [compareSemver] orders versions by major, then minor, then patch:
    its sign is that of the lexicographic comparison, it is zero exactly on
    equal versions, and swapping the arguments swaps the sign. *)
Theorem compareSemver_lexicographic (a b : ParsedSemver) :
  (compareSemver a b < 0 <->
   major a < major b
   \/ (major a = major b
       /\ (minor a < minor b \/ (minor a = minor b /\ patch a < patch b))))
  /\ (compareSemver a b = 0 <-> a = b)
  /\ compareSemver b a = - compareSemver a b.
Proof.
  unfold compareSemver.
  destruct (Z.eqb_spec (major a) (major b)), (Z.eqb_spec (minor a) (minor b)),
    (Z.eqb_spec (major b) (major a)), (Z.eqb_spec (minor b) (minor a));
    cbn [negb]; try lia;
    (split; [lia |]); (split; [| lia]);
    (split; [intros H | intros ->; lia]); try lia.
  destruct a, b; cbn [major minor patch] in *. f_equal; lia.
Qed.

(** *** What the parser keeps *)

Lemma map_heading_updateLast (item : RoadmapItem) (l : list RoadmapMilestone) :
  map heading (updateLast (pushItem item) l) = map heading l.
Proof.
  induction l as [|m l IH]; [reflexivity |].
  cbn [updateLast]. destruct l as [|m' l']; [reflexivity |].
  cbn [map] in *. now rewrite IH.
Qed.

Lemma parseLine_headings (st : ParseState) (line : string) :
  map heading (milestones (parseLine st line))
  = map heading (milestones st)
    ++ match milestoneHeading line with Some h => [h] | None => [] end.
Proof.
  unfold parseLine, milestoneHeading.
  destruct (headingMatch line) as [group1|].
  - destruct (versionOfHeading (trim group1)); cbn [milestones].
    + now rewrite map_app.
    + now rewrite app_nil_r.
  - rewrite app_nil_r. destruct (taskMatch line) as [[mark rest]|]; [| reflexivity].
    destruct (currentIsLast st); [| reflexivity]. cbn [milestones].
    apply map_heading_updateLast.
Qed.

Lemma fold_parseLine_headings (lines : list string) :
  forall st,
    map heading (milestones (fold_left parseLine lines st))
    = map heading (milestones st) ++ milestoneHeadings lines.
Proof.
  induction lines as [|line lines IH]; intros st; cbn [fold_left milestoneHeadings].
  - now rewrite app_nil_r.
  - rewrite IH, parseLine_headings, <- app_assoc.
    now destruct (milestoneHeading line).
Qed.

(** X17. The milestones of a roadmap are its version headings, one for one
    and in the order of the document: the headings of the parsed milestones
    are the trimmed texts of the [##] lines that show a version.  Each
    milestone carries the version its heading shows, with components that are
    not negative. *)
Theorem parsed_milestones_follow_headings (markdown : string) :
  map heading (parseRoadmapMarkdown markdown) = milestoneHeadings (splitLines markdown)
  /\ Forall
       (fun m =>
          versionOfHeading (heading m) = Some (version m)
          /\ 0 <= major (version m) /\ 0 <= minor (version m) /\ 0 <= patch (version m))
       (parseRoadmapMarkdown markdown).
Proof.
  split.
  - unfold parseRoadmapMarkdown. now rewrite fold_parseLine_headings.
  - eapply Forall_impl; [| apply parseRoadmapMarkdown_versioned].
    cbn beta. intros m Hm. split; [exact Hm |].
    unfold versionOfHeading in Hm. destruct (versionMatch (heading m)); [| discriminate Hm].
    now apply parseSemver_nonneg in Hm.
Qed.

(** X18. Writing a roadmap and parsing it gives the roadmap back, for
    milestones whose heading shows their version and whose texts are plain
    (not empty, on one line, no white space at the ends).  So two such
    roadmaps that are written the same are the same. *)
Theorem roadmap_round_trip :
  (forall roadmap,
     Forall WellFormedMilestone roadmap ->
     parseRoadmapMarkdown (renderRoadmap roadmap) = roadmap)
  /\ (forall roadmap1 roadmap2,
        Forall WellFormedMilestone roadmap1 ->
        Forall WellFormedMilestone roadmap2 ->
        renderRoadmap roadmap1 = renderRoadmap roadmap2 ->
        roadmap1 = roadmap2).
Proof.
  split; [exact parse_rendered_roadmap |].
  intros roadmap1 roadmap2 H1 H2 Heq.
  rewrite <- (parse_rendered_roadmap roadmap1 H1), <- (parse_rendered_roadmap roadmap2 H2).
  now rewrite Heq.
Qed.

Lemma roadmap_round_trip_witness :
  parseRoadmapMarkdown
    (renderRoadmap
       [ {| heading := "Release v2.0.0 (next)";
            version := {| major := 2; minor := 0; patch := 0 |};
            items := [ {| done := true; text := "Tab groups" |};
                       {| done := false; text := "Sync, at last" |} ] |} ])
  = [ {| heading := "Release v2.0.0 (next)";
         version := {| major := 2; minor := 0; patch := 0 |};
         items := [ {| done := true; text := "Tab groups" |};
                    {| done := false; text := "Sync, at last" |} ] |} ].
Proof.
  apply (proj1 roadmap_round_trip). repeat constructor.
Defined.

(** *** Line endings *)

Lemma splitLines_line_crlf (l rest : string) :
  allChars isDot l = true ->
  splitLines (l ++ crlf ++ rest) = l :: splitLines rest.
Proof.
  induction l as [|c l IH]; [reflexivity |].
  cbn [allChars]. rewrite andb_true_iff. unfold isDot at 1. rewrite negb_true_iff, orb_false_iff.
  intros [[Hlf Hcr] Hl]. cbn [String.append]. rewrite splitLines_cons, Hlf, Hcr, (IH Hl).
  destruct (l ++ crlf ++ rest)%string eqn:E; [| reflexivity].
  destruct l; discriminate E.
Qed.

Lemma splitLines_concat_crlf (lines : list string) :
  lines <> [] ->
  Forall (fun l => allChars isDot l = true) lines ->
  splitLines (String.concat crlf lines) = lines.
Proof.
  induction lines as [|l lines IH]; [contradiction |].
  intros _ Hall. inversion Hall as [|? ? Hl Hlines]; subst.
  destruct lines as [|l' lines'].
  - cbn [String.concat]. now apply splitLines_plain.
  - change (String.concat crlf (l :: l' :: lines'))
      with (l ++ crlf ++ String.concat crlf (l' :: lines'))%string.
    rewrite (splitLines_line_crlf _ _ Hl), IH; [reflexivity | discriminate | exact Hlines].
Qed.

(** X19. Line endings do not matter: lines joined by carriage return and
    line feed are split as the same lines joined by line feed alone, so the
    roadmap parses to the same milestones. *)
Theorem parseRoadmapMarkdown_crlf (lines : list string) :
  Forall (fun l => allChars isDot l = true) lines ->
  splitLines (String.concat crlf lines) = splitLines (String.concat lineFeed lines)
  /\ parseRoadmapMarkdown (String.concat crlf lines)
     = parseRoadmapMarkdown (String.concat lineFeed lines).
Proof.
  intros Hlines.
  assert (Hsplit : splitLines (String.concat crlf lines)
                   = splitLines (String.concat lineFeed lines)).
  { destruct lines as [|l lines'] eqn:E; [reflexivity |]. rewrite <- E in *.
    rewrite splitLines_concat_crlf, splitLines_concat; try assumption;
      try reflexivity; subst lines; discriminate. }
  split; [exact Hsplit |]. unfold parseRoadmapMarkdown. now rewrite Hsplit.
Qed.

Lemma parseRoadmapMarkdown_crlf_witness :
  splitLines (String.concat crlf ["## v1.3.0"; "- [ ] Split view"])
  = splitLines (String.concat lineFeed ["## v1.3.0"; "- [ ] Split view"])
  /\ parseRoadmapMarkdown (String.concat crlf ["## v1.3.0"; "- [ ] Split view"])
     = parseRoadmapMarkdown (String.concat lineFeed ["## v1.3.0"; "- [ ] Split view"]).
Proof.
  apply (parseRoadmapMarkdown_crlf ["## v1.3.0"; "- [ ] Split view"]).
  repeat constructor.
Defined.

(** *** When there is a plan, and what it holds *)

Lemma orPlaceholder_nonempty (l : list string) : orPlaceholder l <> [].
Proof. unfold orPlaceholder. destruct l; cbn; discriminate. Qed.

Lemma plan_of_roadmap (roadmap : Roadmap) (current : option ParsedSemver) :
  parseRoadmapMarkdown (markdown roadmap) <> [] ->
  exists plan,
    fetchUpcomingReleasePlan (Resolved (Some roadmap)) (Resolved current) = Some plan
    /\ planItems plan <> []
    /\ planSourceUrl plan = Some (sourceUrl roadmap)
    /\ currentVersion plan = option_map formatSemver current
    /\ (hasNextVersion plan = false ->
        current <> None
        /\ nextVersionHeading plan = "No newer roadmap milestone listed yet").
Proof.
  intros Hne. unfold fetchUpcomingReleasePlan. cbn zeta. rewrite sort_length.
  destruct (parseRoadmapMarkdown (markdown roadmap)) as [|m0 ms] eqn:Hparse; [contradiction |].
  rewrite <- Hparse. replace (Nat.eqb (List.length (parseRoadmapMarkdown (markdown roadmap))) 0)
    with false by (rewrite Hparse; reflexivity).
  set (sorted := sort _ (parseRoadmapMarkdown (markdown roadmap))).
  destruct current as [cur|].
  - destruct (find _ sorted) as [next|].
    + eexists. split; [reflexivity |]. cbn [planItems planSourceUrl currentVersion
        hasNextVersion option_map].
      repeat split; try discriminate. apply orPlaceholder_nonempty.
    + destruct (find hasOpenWork sorted) as [work|].
      * eexists. split; [reflexivity |]. cbn [planItems planSourceUrl currentVersion
          hasNextVersion option_map].
        repeat split; try discriminate. apply orPlaceholder_nonempty.
      * eexists. split; [reflexivity |]. cbn [planItems planSourceUrl currentVersion
          hasNextVersion option_map nextVersionHeading].
        repeat split; discriminate.
  - assert (Hsorted : sorted <> []).
    { intros Hnil. pose proof (sort_length (fun a b => compareSemver (version a) (version b))
                                 (parseRoadmapMarkdown (markdown roadmap))) as Hlen.
      fold sorted in Hlen. rewrite Hnil, Hparse in Hlen. discriminate Hlen. }
    destruct sorted as [|baseline rest] eqn:Hs; [contradiction |]. cbn [hd_error].
    destruct (match find _ (baseline :: rest) with Some m => Some m | None => _ end)
      as [next|] eqn:Hnext.
    + eexists. split; [reflexivity |]. cbn [planItems planSourceUrl currentVersion
        hasNextVersion option_map].
      repeat split; try discriminate. apply orPlaceholder_nonempty.
    + exfalso. destruct (find _ (baseline :: rest)); [discriminate Hnext |].
      destruct (find hasOpenWork (baseline :: rest)); discriminate Hnext.
Qed.

(** X20. The plan is [null] exactly when the roadmap could not be fetched,
    or has no milestone, or the version could not be asked for.  A plan always
    lists at least one item and names the source of the roadmap; it says that
    there is no next version only when the current version is known. *)
Theorem fetchUpcomingReleasePlan_null_or_filled
  (roadmapFetch : Awaited (option Roadmap)) (versionFetch : Awaited (option ParsedSemver)) :
  (fetchUpcomingReleasePlan roadmapFetch versionFetch = None <->
   roadmapFetch = Rejected
   \/ roadmapFetch = Resolved None
   \/ exists roadmap,
        roadmapFetch = Resolved (Some roadmap)
        /\ (parseRoadmapMarkdown (markdown roadmap) = [] \/ versionFetch = Rejected))
  /\ (forall plan,
        fetchUpcomingReleasePlan roadmapFetch versionFetch = Some plan ->
        planItems plan <> []
        /\ exists roadmap current,
             roadmapFetch = Resolved (Some roadmap)
             /\ versionFetch = Resolved current
             /\ planSourceUrl plan = Some (sourceUrl roadmap)
             /\ currentVersion plan = option_map formatSemver current
             /\ (hasNextVersion plan = false -> current <> None)).
Proof.
  destruct roadmapFetch as [|[roadmap|]].
  - split; [split; [now left | reflexivity] | intros plan H; discriminate H].
  - destruct (parseRoadmapMarkdown (markdown roadmap)) as [|m0 ms] eqn:Hparse.
    + assert (Hnone : fetchUpcomingReleasePlan (Resolved (Some roadmap)) versionFetch = None).
      { unfold fetchUpcomingReleasePlan. cbn zeta. rewrite sort_length, Hparse. reflexivity. }
      rewrite Hnone. split; [| intros plan H; discriminate H].
      split; [| reflexivity]. intros _. right. right. exists roadmap. tauto.
    + destruct versionFetch as [|current].
      * assert (Hnone : fetchUpcomingReleasePlan (Resolved (Some roadmap)) Rejected = None).
        { unfold fetchUpcomingReleasePlan. cbn zeta. rewrite sort_length, Hparse. reflexivity. }
        rewrite Hnone. split; [| intros plan H; discriminate H].
        split; [| reflexivity]. intros _. right. right. exists roadmap. tauto.
      * destruct (plan_of_roadmap roadmap current) as [plan [Hplan [Hitems [Hurl [Hcur Hnext]]]]];
          [rewrite Hparse; discriminate |].
        rewrite Hplan. split.
        -- split; [discriminate |].
           intros [H | [H | [r [[= <-] [H | H]]]]]; try discriminate H.
           rewrite Hparse in H. discriminate H.
        -- intros plan' [= <-]. split; [exact Hitems |].
           exists roadmap, current. repeat split; try assumption. now apply Hnext.
  - split; [split; [now right; left | reflexivity] | intros plan H; discriminate H].
Qed.

Lemma fetchUpcomingReleasePlan_null_or_filled_witness :
  fetchUpcomingReleasePlan
    (Resolved (Some {| markdown := "no milestones here"; sourceUrl := "ROADMAP.md" |}))
    (Resolved None)
  = None.
Proof.
  apply (proj1 (fetchUpcomingReleasePlan_null_or_filled _ _)).
  right. right. eexists. split; [reflexivity |]. left. reflexivity.
Defined.

(** *** When the roadmap has nothing newer *)

Lemma find_none_all {A : Type} (p : A -> bool) (l : list A) :
  (forall x, In x l -> p x = false) -> find p l = None.
Proof.
  induction l as [|x l IH]; [reflexivity |]. intros Hall. cbn [find].
  rewrite (Hall x (or_introl eq_refl)). apply IH. intros y Hy. apply Hall. now right.
Qed.

Lemma hasOpenWork_texts (m : RoadmapMilestone) :
  hasOpenWork m = true -> orPlaceholder (uncheckedTexts m) = uncheckedTexts m.
Proof.
  unfold hasOpenWork, uncheckedTexts, orPlaceholder. intros Hwork.
  apply existsb_exists in Hwork. destruct Hwork as [item [Hin Hopen]].
  assert (Hf : In item (filter (fun i => negb (done i)) (items m)))
    by (apply filter_In; now split).
  destruct (filter (fun i => negb (done i)) (items m)); [contradiction | reflexivity].
Qed.

(** X21. When the current version is known and no milestone of the roadmap
    is above it: if every item of every milestone is checked, the plan says
    that no newer milestone is listed; otherwise it shows the unchecked items
    of a milestone with unchecked items whose version is the lowest among
    those. *)
Theorem plan_when_nothing_newer (md url : string) (current : ParsedSemver) :
  parseRoadmapMarkdown md <> [] ->
  (forall m, In m (parseRoadmapMarkdown md) -> compareSemver (version m) current <= 0) ->
  ((forall m, In m (parseRoadmapMarkdown md) -> hasOpenWork m = false) ->
   fetchUpcomingReleasePlan
     (Resolved (Some {| markdown := md; sourceUrl := url |})) (Resolved (Some current))
   = Some {| currentVersion := Some (formatSemver current);
             nextVersionHeading := "No newer roadmap milestone listed yet";
             planItems :=
               ["ROADMAP.md currently has no version higher than the latest stable release."];
             planSourceUrl := Some url;
             hasNextVersion := false |})
  /\ ((exists m, In m (parseRoadmapMarkdown md) /\ hasOpenWork m = true) ->
      exists work,
        In work (parseRoadmapMarkdown md)
        /\ hasOpenWork work = true
        /\ (forall m, In m (parseRoadmapMarkdown md) -> hasOpenWork m = true ->
                       compareSemver (version work) (version m) <= 0)
        /\ fetchUpcomingReleasePlan
             (Resolved (Some {| markdown := md; sourceUrl := url |}))
             (Resolved (Some current))
           = Some {| currentVersion := Some (formatSemver current);
                     nextVersionHeading := heading work;
                     planItems := uncheckedTexts work;
                     planSourceUrl := Some url;
                     hasNextVersion := true |}).
Proof.
  intros Hne Hold.
  set (byVersion := fun a b : RoadmapMilestone => compareSemver (version a) (version b)).
  assert (Hplan :
            fetchUpcomingReleasePlan
              (Resolved (Some {| markdown := md; sourceUrl := url |}))
              (Resolved (Some current))
            = match find hasOpenWork (sort byVersion (parseRoadmapMarkdown md)) with
              | Some work =>
                  Some {| currentVersion := Some (formatSemver current);
                          nextVersionHeading := heading work;
                          planItems := orPlaceholder (uncheckedTexts work);
                          planSourceUrl := Some url;
                          hasNextVersion := true |}
              | None =>
                  Some {| currentVersion := Some (formatSemver current);
                          nextVersionHeading := "No newer roadmap milestone listed yet";
                          planItems :=
                            ["ROADMAP.md currently has no version higher than the latest stable release."];
                          planSourceUrl := Some url;
                          hasNextVersion := false |}
              end).
  { unfold fetchUpcomingReleasePlan. cbn zeta. cbn [markdown sourceUrl]. rewrite sort_length.
    destruct (parseRoadmapMarkdown md) as [|m0 ms] eqn:Hparse; [contradiction |].
    rewrite <- Hparse in *.
    replace (Nat.eqb (List.length (parseRoadmapMarkdown md)) 0) with false
      by (rewrite Hparse; reflexivity).
    fold byVersion.
    rewrite (find_none_all (fun milestone => 0 <? compareSemver (version milestone) current)).
    - reflexivity.
    - intros m Hm. apply sort_In in Hm. apply Z.ltb_ge. now apply Hold. }
  rewrite Hplan. split.
  - intros Hdone. rewrite find_none_all; [reflexivity |].
    intros m Hm. apply sort_In in Hm. now apply Hdone.
  - intros [m [Hm Hwork]].
    destruct (find hasOpenWork (sort byVersion (parseRoadmapMarkdown md))) as [work|] eqn:Hfind.
    + destruct (find_split hasOpenWork _ work Hfind) as [l1 [l2 [Hsplit [Hw Hl1]]]].
      exists work. split; [| split; [exact Hw | split]].
      * apply (sort_In byVersion). rewrite Hsplit. apply in_or_app. right. now left.
      * intros m' Hm' Hwork'. apply (sort_In byVersion) in Hm'. rewrite Hsplit in Hm'.
        apply in_app_or in Hm'. destruct Hm' as [H1 | [<- | H2]].
        -- rewrite (Hl1 m' H1) in Hwork'. discriminate Hwork'.
        -- unfold compareSemver. rewrite !Z.eqb_refl. cbn [negb]. lia.
        -- pose proof (sort_sorted byVersion
                         (fun a b => compareSemver_total (version a) (version b))
                         (fun a b c => compareSemver_trans (version a) (version b) (version c))
                         (parseRoadmapMarkdown md)) as Hsorted.
           rewrite Hsplit in Hsorted. apply StronglySorted_app_r in Hsorted.
           inversion Hsorted as [|? ? _ Hall]; subst.
           rewrite Forall_forall in Hall. now apply Hall.
      * now rewrite (hasOpenWork_texts work Hw).
    + exfalso. pose proof (find_none hasOpenWork _ Hfind m) as Hno.
      rewrite Hno in Hwork; [discriminate Hwork | now apply sort_In].
Qed.

Lemma plan_when_nothing_newer_witness :
  fetchUpcomingReleasePlan
    (Resolved (Some {| markdown := Samples.sampleRoadmap; sourceUrl := "ROADMAP.md" |}))
    (Resolved (Some {| major := 2; minor := 0; patch := 0 |}))
  <> None.
Proof.
  destruct (proj2 (plan_when_nothing_newer Samples.sampleRoadmap "ROADMAP.md"
                     {| major := 2; minor := 0; patch := 0 |}
                     ltac:(vm_compute; discriminate)
                     ltac:(vm_compute; intros m [<- | [<- | []]]; discriminate)))
    as [work [_ [_ [_ Hplan]]]].
  - eexists. split; [vm_compute; right; left; reflexivity | reflexivity].
  - rewrite Hplan. discriminate.
Defined.

(** *** Where the current version comes from *)









(** *** Where the roadmap comes from *)

Section FetchRoadmapFacts.
Variable decodeBase64 : string -> string.

(** X23. The roadmap that is fetched is never blank.  It comes from the
    contents API, decoded from base64 with the line feeds of the encoded text
    removed, and then its source is the page of the file on GitHub; or, when
    the contents API gave nothing usable, from the raw file, and then its
    source is the raw address.  When neither response is [ok] there is no
    roadmap and no plan, whatever the releases say. *)
Theorem fetchRoadmapMarkdown_source
  (contentsFetch : Awaited (Response ContentsJson)) (rawFetch : Awaited (Response string)) :
  (forall roadmap,
     fetchRoadmapMarkdown decodeBase64 contentsFetch rawFetch = Resolved (Some roadmap) ->
     trim (markdown roadmap) <> EmptyString
     /\ ((sourceUrl roadmap = ROADMAP_BLOB_URL
          /\ exists response data text,
               contentsFetch = Resolved response
               /\ ok response = true
               /\ body response = Resolved data
               /\ encoding data = Some "base64"
               /\ content data = Some text
               /\ markdown roadmap = decodeBase64 (removeLineFeeds text))
         \/ (sourceUrl roadmap = ROADMAP_URL
             /\ exists response,
                  rawFetch = Resolved response
                  /\ ok response = true
                  /\ body response = Resolved (markdown roadmap))))
  /\ (forall contentsBody rawBody latestFetch releasesFetch latestPageFetch,
        contentsFetch = Resolved {| ok := false; body := contentsBody |} ->
        rawFetch = Resolved {| ok := false; body := rawBody |} ->
        fetchRoadmapMarkdown decodeBase64 contentsFetch rawFetch = Resolved None
        /\ upcomingReleasePlan decodeBase64 contentsFetch rawFetch
             latestFetch releasesFetch latestPageFetch = None).
Proof.
  split.
  - intros roadmap. unfold fetchRoadmapMarkdown, await.
    destruct contentsFetch as [|response]; [discriminate |].
    assert (Hraw :
              match rawFetch with
              | Rejected => Rejected
              | Resolved a =>
                  if negb (ok a) then Resolved None
                  else
                    match body a with
                    | Rejected => Rejected
                    | Resolved md =>
                        if String.eqb (trim md) "" then Resolved None
                        else Resolved (Some {| markdown := md; sourceUrl := ROADMAP_URL |})
                    end
              end = Resolved (Some roadmap) ->
              trim (markdown roadmap) <> EmptyString
              /\ sourceUrl roadmap = ROADMAP_URL
              /\ exists r, rawFetch = Resolved r /\ ok r = true
                           /\ body r = Resolved (markdown roadmap)).
    { destruct rawFetch as [|r]; [discriminate |].
      destruct (ok r) eqn:Hok; cbn [negb]; [| discriminate].
      destruct (body r) as [|md] eqn:Hbody; [discriminate |].
      destruct (String.eqb_spec (trim md) ""); [discriminate |].
      intros [= <-]. cbn [markdown sourceUrl]. split; [assumption |]. split; [reflexivity |].
      exists r. now rewrite Hbody. }
    destruct (ok response) eqn:Hok.
    + destruct (body response) as [|data] eqn:Hbody; [discriminate |].
      destruct (encoding data) as [enc|] eqn:Henc;
        [| intros H; apply Hraw in H; tauto].
      destruct (content data) as [text|] eqn:Hcontent;
        [| intros H; apply Hraw in H; tauto].
      destruct (String.eqb_spec enc "base64") as [-> |];
        [| intros H; apply Hraw in H; tauto].
      destruct (Nat.ltb 0 (String.length (trim (decodeBase64 (removeLineFeeds text)))))
        eqn:Hlen; [| intros H; apply Hraw in H; tauto].
      intros [= <-]. cbn [markdown sourceUrl]. split.
      * intros Hblank. rewrite Hblank in Hlen. discriminate Hlen.
      * left. split; [reflexivity |]. exists response, data, text. now rewrite Hbody.
    + intros H; apply Hraw in H; tauto.
  - intros contentsBody rawBody latestFetch releasesFetch latestPageFetch -> ->.
    unfold upcomingReleasePlan. split; reflexivity.
Qed.

End FetchRoadmapFacts.

Lemma fetchRoadmapMarkdown_source_witness :
  fetchRoadmapMarkdown (fun encoded => encoded)
    (Resolved {| ok := false; body := Rejected |})
    (Resolved {| ok := false; body := Rejected |}) = Resolved None
  /\ upcomingReleasePlan (fun encoded => encoded)
       (Resolved {| ok := false; body := Rejected |})
       (Resolved {| ok := false; body := Rejected |})
       Rejected Rejected Rejected = None.
Proof.
  apply (proj2 (fetchRoadmapMarkdown_source (fun encoded => encoded) _ _) Rejected Rejected);
    reflexivity.
Defined.

End RoadmapFacts.

(** ** The hero image *)

Module ThemeFacts.
Import Theme.

(** X24. The hero image follows the stored preference when it is ["light"]
    or ["dark"], whatever the system prefers; any other stored value, or none,
    leaves the choice to the system; without a [window] the light image is
    shown.  The image is the dark one, with its dimensions, exactly when the
    effective theme is dark. *)
Theorem ThemeHeroImage_preference (window : option Window) :
  (effectiveTheme window = Dark <->
   exists w,
     window = Some w
     /\ (storedValue w = Some "dark"
         \/ (storedValue w <> Some "light" /\ storedValue w <> Some "dark"
             /\ prefersDark w = true)))
  /\ (effectiveTheme window = Dark ->
      ThemeHeroImage window
      = {| src := "/assets/mira_app.png"; width := 7680; height := 4220 |})
  /\ (effectiveTheme window = Light ->
      ThemeHeroImage window
      = {| src := "/assets/mira_app_light.png"; width := 3808; height := 2078 |})
  /\ effectiveTheme None = Light.
Proof.
  split; [| split; [| split]].
  - unfold effectiveTheme. destruct window as [w|]; cbn.
    + destruct (storedValue w) as [value|] eqn:Hstored.
      * destruct (String.eqb_spec value "light") as [-> | Hlight].
        -- split; [discriminate |].
           intros [w' [[= <-] [H | [H _]]]]; rewrite Hstored in H; congruence.
        -- destruct (String.eqb_spec value "dark") as [-> | Hdark].
           ++ split; [| reflexivity]. intros _. exists w. split; [reflexivity |]. now left.
           ++ destruct (prefersDark w) eqn:Hsys.
              ** split; [| reflexivity]. intros _. exists w. split; [reflexivity |].
                 right. rewrite Hstored. repeat split; congruence.
              ** split; [discriminate |].
                 intros [w' [[= <-] [H | [_ [_ H]]]]]; rewrite ?Hstored in H; congruence.
      * destruct (prefersDark w) eqn:Hsys.
        -- split; [| reflexivity]. intros _. exists w. split; [reflexivity |].
           right. rewrite Hstored. repeat split; congruence.
        -- split; [discriminate |].
           intros [w' [[= <-] [H | [_ [_ H]]]]]; rewrite ?Hstored in H; congruence.
    + split; [discriminate | intros [w [H _]]; discriminate H].
  - unfold ThemeHeroImage. now intros ->.
  - unfold ThemeHeroImage. now intros ->.
  - reflexivity.
Qed.

Lemma ThemeHeroImage_preference_witness :
  ThemeHeroImage (Some {| storedValue := Some "dark"; prefersDark := false |})
  = {| src := "/assets/mira_app.png"; width := 7680; height := 4220 |}.
Proof.
  apply (proj1 (proj2 (ThemeHeroImage_preference _))). reflexivity.
Defined.

End ThemeFacts.
